(** * DevDigger database reader: a shallow embedding of
      [example-usage/use_devdigger_db.py] and the properties of its
      query methods.

    The Python file is a thin client over a SQLite database.  Its
    behaviour is the behaviour of the SQL statements it sends, of the
    reshaping of the rows into dictionaries, and of the one file it
    writes.  The embedding therefore has three layers:

    - the values and the operators of the SQL statements that occur in
      the file ([=], [LIKE], [IS NOT NULL], [ORDER BY], [LIMIT],
      [JOIN], [COUNT]);
    - the methods of [DevDiggerDB] as computations over a world made of
      a file system and a log of what the process did;
    - the JSON text written by [export_to_json] and a reader for it.

    The two examples that hand the data to OpenAI and LangChain are not
    part of the embedding; of LangChain there are only the [Document]
    objects that [to_langchain_documents] builds. *)

From Stdlib Require Import ZArith Ascii String Strings.Byte.
From Stdlib Require Import DecimalString DecimalZ DecimalPos.
From stdpp Require Import gmap strings list sorting.

#[local] Set Warnings "-register-all".

Local Open Scope string_scope.
Local Open Scope list_scope.
Local Open Scope Z_scope.

(** ** Text

    A Python [str] and a SQLite TEXT value are sequences of characters;
    the development writes them as [string], one [ascii] per character. *)

Module Text.

Definition chars (s : string) : list ascii := list_ascii_of_string s.

(** [needle in hay] of Python: [needle] occurs in [hay] as a
    contiguous run of characters, compared exactly. *)
Fixpoint starts_with (p s : list ascii) : bool :=
  match p, s with
  | [], _ => true
  | _ :: _, [] => false
  | a :: p', b :: s' => bool_decide (a = b) && starts_with p' s'
  end.

Fixpoint occurs_in (p s : list ascii) : bool :=
  starts_with p s ||
  match s with
  | [] => false
  | _ :: s' => occurs_in p s'
  end.

Definition contains (hay needle : string) : bool :=
  occurs_in (chars needle) (chars hay).

(** ASCII lower case, as [sqlite3Tolower] computes it: only the 26
    letters [A]..[Z] change. *)
Definition lower (c : ascii) : ascii :=
  let n := N_of_ascii c in
  if ((65 <=? n) && (n <=? 90))%N then ascii_of_N (n + 32) else c.

(** [needle] occurs in [hay] up to the case of ASCII letters. *)
Definition contains_nocase (hay needle : string) : bool :=
  occurs_in (map lower (chars needle)) (map lower (chars hay)).

End Text.

(** ** Values

    The values that travel between Python and SQLite: [None]/NULL,
    [int]/INTEGER, [str]/TEXT and [bytes]/BLOB.  The [sqlite3] module
    converts each to the other without change, so one type serves both
    sides.  Floating-point values are left out. *)

Inductive value : Type :=
  | VNone
  | VInt (z : Z)
  | VStr (s : string)
  | VBytes (b : list byte).

Global Instance byte_eq_dec : EqDecision byte := Byte.byte_eq_dec.
Global Instance value_eq_dec : EqDecision value.
Proof. solve_decision. Defined.

(** Python's truth value of an argument ([if source_id:]). *)
Definition truthy (v : value) : bool :=
  match v with
  | VNone => false
  | VInt z => negb (z =? 0)
  | VStr s => negb (bool_decide (s = ""))
  | VBytes b => negb (bool_decide (b = []))
  end.

Module Sql.

(** *** Comparison

    [a = b] in a WHERE or ON clause, for two values as they stand, that
    is after the conversion SQLite makes for the declared type of a
    column (below).  A comparison with NULL is NULL, which selects no
    row; values of different storage classes are different; two texts
    are compared byte by byte, as the default collating sequence
    does. *)
Definition eq (a b : value) : bool :=
  match a, b with
  | VNone, _ | _, VNone => false
  | _, _ => bool_decide (a = b)
  end.

(** *** Declared types

    The type a column is declared with gives it an affinity, and in
    [column = ?] SQLite applies the affinity of the column to the bound
    parameter before it compares: on a column of TEXT affinity an
    integer is compared as its decimal text; a column of BLOB affinity
    (no declared type) converts nothing.  On a column of one of the
    numeric affinities an integer, a blob and NULL stay as they are,
    while a text that reads as a number is compared as that number, an
    integer or a floating-point value: text parameters on such a column
    are outside this development ([converts]), and [apply_affinity]
    says nothing true about them. *)
Inductive affinity : Type := TEXT | NUMERIC | INTEGER | REAL | BLOB.


(** The decimal text of an integer. *)
Definition int_text (z : Z) : string :=
  DecimalString.NilZero.string_of_int (Z.to_int z).

Definition apply_affinity (a : affinity) (v : value) : value :=
  match a, v with
  | TEXT, VInt z => VStr (int_text z)
  | _, _ => v
  end.


(** *** Order

    The order [ORDER BY] sorts with: NULL first, then integers by
    value, then text and blobs byte by byte. *)
Definition class (v : value) : Z :=
  match v with VNone => 0 | VInt _ => 1 | VStr _ => 2 | VBytes _ => 3 end.

Definition le (a b : value) : bool :=
  match a, b with
  | VInt x, VInt y => x <=? y
  | VStr x, VStr y => String.leb x y
  | VBytes x, VBytes y =>
      String.leb (string_of_list_byte x) (string_of_list_byte y)
  | _, _ => class a <=? class b
  end.

(** *** LIKE

    [patternCompare] of SQLite with the settings of the LIKE operator:
    [%] stands for any run of characters, [_] for any one character,
    every other character for itself up to the case of ASCII letters.
    Both operands are read as C strings, that is up to their first NUL
    character.  The engine refuses a pattern of more than 50000 bytes
    with an error when it evaluates LIKE; [pattern_compare] and the
    statements below do not model this, and [pattern_fits] is the
    condition under which they agree with the engine. *)
Fixpoint c_string (s : list ascii) : list ascii :=
  match s with
  | [] => []
  | c :: s' => if bool_decide (c = zero) then [] else c :: c_string s'
  end.

Fixpoint pattern_compare (p s : list ascii) : bool :=
  match p with
  | [] => match s with [] => true | _ :: _ => false end
  | c :: p' =>
      if bool_decide (c = "%"%char) then
        (fix rest (s : list ascii) : bool :=
           pattern_compare p' s ||
           match s with [] => false | _ :: s' => rest s' end) s
      else
        match s with
        | [] => false
        | d :: s' =>
            (bool_decide (c = "_"%char)
             || bool_decide (Text.lower c = Text.lower d))
            && pattern_compare p' s'
        end
  end.

Definition like (subject pattern : string) : bool :=
  pattern_compare (c_string (Text.chars pattern))
                  (c_string (Text.chars subject)).

(** A query without [%], [_] and NUL: a pattern built around it has no
    wild card but those around it. *)
Definition literal (query : string) : bool :=
  forallb (λ c, negb (bool_decide (c = "%"%char))
                && negb (bool_decide (c = "_"%char))
                && negb (bool_decide (c = zero)))
          (Text.chars query).

(** The same of a list of characters, as a proposition. *)
Definition plain_chars (p : list ascii) : Prop :=
  Forall (λ c, c ≠ "%"%char ∧ c ≠ "_"%char ∧ c ≠ zero) p.




(** *** LIMIT

    A negative limit means no limit. *)
Definition limit {A} (n : Z) (rows : list A) : list A :=
  if n <? 0 then rows else take (Z.to_nat n) rows.

(** *** Parameter binding

    [sqlite3] refuses an [int] outside the 64-bit signed range with
    [OverflowError]. *)
Definition fits_int64 (z : Z) : bool :=
  (- 2 ^ 63 <=? z) && (z <? 2 ^ 63).

Definition bindable (v : value) : bool :=
  match v with VInt z => fits_int64 z | _ => true end.

End Sql.

(** ** The database

    The rows of the four tables, with the columns of the crawler's
    schema that the file reads.  A column the reader only compares,
    sorts by or passes on is kept as a [value], so it may hold NULL; the
    content of a document is text, its chunk index an integer and its
    embedding a blob or NULL, as the data model has them.  A table is the
    list of its rows in the order of their row ids.

    The declarations of the tables belong to the crawler, not to the
    file.  What the file's statements depend on is the affinity of the
    two columns that are compared with a parameter, [documents.source_id]
    and [code_examples.language]: they are a parameter of the database
    ([columns]).  The two sides of the join, [source_id] and
    [sources.id], are taken to be declared alike, so that the join
    compares the stored values as they are. *)

Record schema : Type := {
  documents_source_id : Sql.affinity;
  code_examples_language : Sql.affinity;
}.

Record Source : Type := {
  src_id : value;
  src_type : value;
  src_url : value;
  src_title : value;
  src_crawl_status : value;
  src_created_at : value;
}.

Record Document : Type := {
  doc_id : value;
  doc_source_id : value;
  doc_content : string;
  doc_chunk_index : Z;
  doc_embedding : option (list byte);
}.

Record CodeExample : Type := {
  ex_id : value;
  ex_source_id : value;
  ex_language : value;
  ex_description : value;
  ex_code : value;
}.

Record Collection : Type := {
  coll_id : value;
}.

Record database : Type := {
  columns : schema;
  sources : list Source;
  documents : list Document;
  code_examples : list CodeExample;
  collections : list Collection;
}.

(** ** Dictionaries

    A Python [dict] with string keys: the pairs in insertion order, no
    key twice.  A [sqlite3.Row] is the list of its columns in the same
    form. *)

Section Dict.
Context {V : Type}.

(** [d.get(k)] *)
Fixpoint dict_get (k : string) (d : list (string * V)) : option V :=
  match d with
  | [] => None
  | (k', v) :: d' => if bool_decide (k' = k) then Some v else dict_get k d'
  end.

(** [d[k] = v] *)
Fixpoint dict_set (k : string) (v : V) (d : list (string * V))
  : list (string * V) :=
  match d with
  | [] => [(k, v)]
  | (k', v') :: d' =>
      if bool_decide (k' = k) then (k, v) :: d'
      else (k', v') :: dict_set k v d'
  end.

(** [dict(pairs)] *)
Definition dict_of (pairs : list (string * V)) : list (string * V) :=
  foldl (λ d kv, dict_set kv.1 kv.2 d) [] pairs.

Definition keys (d : list (string * V)) : list string := d.*1.
End Dict.

Abbreviation row := (list (string * value)).

(** ** The statements

    The eight SQL statements of the file; a constructor's arguments are
    the parameters bound to the statement's placeholders (for
    [CountRows], the table name spliced into the text). *)

Inductive statement : Type :=
  | CountRows (table : string)
  | SelectSources
  | SearchDocuments (pattern : string) (limit : Z)
  | SelectDocumentsOf (source_id : value)
  | SelectDocuments
  | SelectCodeExamplesIn (language : value)
  | SelectCodeExamples
  | SelectEmbeddings.

Module Query.

Definition blob (o : option (list byte)) : value :=
  match o with None => VNone | Some b => VBytes b end.

(** [SELECT COUNT( * ) as count FROM <table>]; an unknown table is an
    error. *)
Definition count {A} (rows : list A) : list row :=
  [[("count", VInt (Z.of_nat (length rows)))]].

Definition count_rows (table : string) (db : database)
  : option (list row) :=
  if bool_decide (table = "sources") then Some (count (sources db))
  else if bool_decide (table = "documents") then Some (count (documents db))
  else if bool_decide (table = "code_examples")
       then Some (count (code_examples db))
  else if bool_decide (table = "collections")
       then Some (count (collections db))
  else None.

(** [SELECT id, type, url, title, crawl_status, created_at FROM sources
    ORDER BY created_at DESC] *)
Definition newer_first (a b : Source) : Prop :=
  Sql.le (src_created_at b) (src_created_at a).

Global Instance newer_first_dec : RelDecision newer_first.
Proof. intros a b. unfold newer_first. apply _. Defined.

Definition source_row (s : Source) : row :=
  [("id", src_id s); ("type", src_type s); ("url", src_url s);
   ("title", src_title s); ("crawl_status", src_crawl_status s);
   ("created_at", src_created_at s)].

Definition select_sources (db : database) : list row :=
  source_row <$> merge_sort newer_first (sources db).

(** [FROM <table> t JOIN sources s ON t.source_id = s.id]: every row of
    the table with every source it refers to.  The statements with a
    join have no ORDER BY, so the order of their rows is the engine's
    choice (which table it scans in the outer loop, and by which index);
    the list here is in the order of one such choice, the table in the
    outer loop by row id, and only what holds of every order (which
    rows, how many) is to be read off it. *)
Definition join_sources {A} (source_id : A → value) (table : list A)
    (db : database) : list (A * Source) :=
  t ← table;
  s ← filter (λ s, Sql.eq (source_id t) (src_id s)) (sources db);
  [(t, s)].

(** [SELECT d.id, d.content, d.source_id, s.url, s.title FROM documents d
    JOIN sources s ON d.source_id = s.id WHERE d.content LIKE ? LIMIT ?] *)
Definition search_row (ds : Document * Source) : row :=
  [("id", doc_id ds.1); ("content", VStr (doc_content ds.1));
   ("source_id", doc_source_id ds.1);
   ("url", src_url ds.2); ("title", src_title ds.2)].

Definition search_documents (pattern : string) (limit : Z) (db : database)
  : list row :=
  search_row <$>
    Sql.limit limit
      (filter (λ ds, Sql.like (doc_content ds.1) pattern)
              (join_sources doc_source_id (documents db) db)).

(** [SELECT * FROM documents WHERE source_id = ? ORDER BY chunk_index]
    and [SELECT * FROM documents] *)
Definition document_row (d : Document) : row :=
  [("id", doc_id d); ("source_id", doc_source_id d);
   ("content", VStr (doc_content d));
   ("chunk_index", VInt (doc_chunk_index d));
   ("embedding", blob (doc_embedding d))].

Definition by_chunk_index (a b : Document) : Prop :=
  doc_chunk_index a ≤ doc_chunk_index b.

Global Instance by_chunk_index_dec : RelDecision by_chunk_index.
Proof. intros a b. unfold by_chunk_index. apply _. Defined.

Definition select_documents_of (source_id : value) (db : database)
  : list row :=
  let sought :=
    Sql.apply_affinity (documents_source_id (columns db)) source_id in
  document_row <$>
    merge_sort by_chunk_index
      (filter (λ d, Sql.eq (doc_source_id d) sought) (documents db)).

Definition select_documents (db : database) : list row :=
  document_row <$> documents db.

(** [SELECT c.*, s.url as source_url FROM code_examples c JOIN sources s
    ON c.source_id = s.id], with or without [WHERE c.language = ?] *)
Definition code_example_row (cs : CodeExample * Source) : row :=
  [("id", ex_id cs.1); ("source_id", ex_source_id cs.1);
   ("language", ex_language cs.1); ("description", ex_description cs.1);
   ("code", ex_code cs.1); ("source_url", src_url cs.2)].

Definition select_code_examples (db : database) : list row :=
  code_example_row <$> join_sources ex_source_id (code_examples db) db.

Definition select_code_examples_in (language : value) (db : database)
  : list row :=
  let sought :=
    Sql.apply_affinity (code_examples_language (columns db)) language in
  code_example_row <$>
    filter (λ cs, Sql.eq (ex_language cs.1) sought)
           (join_sources ex_source_id (code_examples db) db).

(** [SELECT d.id, d.content, d.embedding, s.url, s.title FROM documents d
    JOIN sources s ON d.source_id = s.id WHERE d.embedding IS NOT NULL] *)
Definition embedding_row (ds : Document * Source) : row :=
  [("id", doc_id ds.1); ("content", VStr (doc_content ds.1));
   ("embedding", blob (doc_embedding ds.1));
   ("url", src_url ds.2); ("title", src_title ds.2)].

Definition select_embeddings (db : database) : list row :=
  embedding_row <$>
    filter (λ ds, is_Some (doc_embedding ds.1))
           (join_sources doc_source_id (documents db) db).

(** The rows a statement yields, [None] when the engine rejects it. *)
Definition run (sql : statement) (db : database) : option (list row) :=
  match sql with
  | CountRows table => count_rows table db
  | SelectSources => Some (select_sources db)
  | SearchDocuments pattern limit => Some (search_documents pattern limit db)
  | SelectDocumentsOf source_id => Some (select_documents_of source_id db)
  | SelectDocuments => Some (select_documents db)
  | SelectCodeExamplesIn language =>
      Some (select_code_examples_in language db)
  | SelectCodeExamples => Some (select_code_examples db)
  | SelectEmbeddings => Some (select_embeddings db)
  end.

(** The parameters of a statement can be bound. *)
Definition bindable (sql : statement) : bool :=
  match sql with
  | SearchDocuments _ limit => Sql.fits_int64 limit
  | SelectDocumentsOf v | SelectCodeExamplesIn v => Sql.bindable v
  | _ => true
  end.

End Query.

(** ** What Python prints

    [str(v)] for the values of the file. *)

Module Py.

Definition backslash : ascii := "092".
Definition dquote : ascii := "034".
Definition squote : ascii := "039".

Definition hexdigit (n : N) : ascii :=
  if (n <? 10)%N then ascii_of_N (48 + n) else ascii_of_N (87 + n).

(** [str(z)] for an [int]: its decimal numeral. *)
Definition int_str (z : Z) : string :=
  DecimalString.NilZero.string_of_int (Z.to_int z).

(** [repr(b)] for [bytes], which is also [str(b)]. *)
Definition bytes_quote (b : list byte) : ascii :=
  if bool_decide (byte_of_ascii squote ∈ b)
     && negb (bool_decide (byte_of_ascii dquote ∈ b))
  then dquote else squote.

Definition bytes_repr_char (quote : ascii) (x : byte) : list ascii :=
  let c := ascii_of_byte x in
  let n := N_of_ascii c in
  if bool_decide (c = quote) || bool_decide (c = backslash)
  then [backslash; c]
  else if bool_decide (c = "009"%char) then [backslash; "t"%char]
  else if bool_decide (c = "010"%char) then [backslash; "n"%char]
  else if bool_decide (c = "013"%char) then [backslash; "r"%char]
  else if ((n <? 32) || (127 <=? n))%N
  then [backslash; "x"%char; hexdigit (n / 16); hexdigit (n mod 16)]
  else [c].

Definition bytes_repr (b : list byte) : string :=
  let quote := bytes_quote b in
  string_of_list_ascii
    ("b"%char :: quote :: (b ≫= bytes_repr_char quote) ++ [quote]).

Definition str (v : value) : string :=
  match v with
  | VNone => "None"
  | VInt z => int_str z
  | VStr s => s
  | VBytes b => bytes_repr b
  end.

End Py.

(** ** JSON

    [json.dump(obj, f, indent=2, default=str)] for the objects the file
    builds, dictionaries and lists over [value]s, and [json.load] for the
    text it produces. *)

Inductive pyobj : Type :=
  | PVal (v : value)
  | PList (items : list pyobj)
  | PDict (items : list (string * pyobj)).

Inductive json : Type :=
  | JNull
  | JBool (b : bool)
  | JInt (z : Z)
  | JStr (s : string)
  | JList (items : list json)
  | JDict (items : list (string * json)).

Module Json.

Import Py.

(** *** Writing *)

(** One character of a string literal, as [ensure_ascii] writes it:
    printable ASCII stays, the rest is escaped. *)
Definition escape (c : ascii) : list ascii :=
  let n := N_of_ascii c in
  if bool_decide (c = dquote) then [backslash; dquote]
  else if bool_decide (c = backslash) then [backslash; backslash]
  else if bool_decide (c = "010"%char) then [backslash; "n"%char]
  else if bool_decide (c = "013"%char) then [backslash; "r"%char]
  else if bool_decide (c = "009"%char) then [backslash; "t"%char]
  else if bool_decide (c = "008"%char) then [backslash; "b"%char]
  else if bool_decide (c = "012"%char) then [backslash; "f"%char]
  else if ((32 <=? n) && (n <=? 126))%N then [c]
  else [backslash; "u"%char; "0"%char; "0"%char;
        hexdigit (n / 16); hexdigit (n mod 16)].

Definition encode_string (s : string) : list ascii :=
  dquote :: (Text.chars s ≫= escape) ++ [dquote].

(** A [bytes] value is not serializable: [default=str] turns it into
    the string [str(b)], which is then written. *)
Definition encode_value (v : value) : list ascii :=
  match v with
  | VNone => Text.chars "null"
  | VInt z => Text.chars (int_str z)
  | VStr s => encode_string s
  | VBytes b => encode_string (str (VBytes b))
  end.

Definition newline_indent (level : nat) : list ascii :=
  "010"%char :: replicate (2 * level) " "%char.

Fixpoint join (sep : list ascii) (parts : list (list ascii)) : list ascii :=
  match parts with
  | [] => []
  | [p] => p
  | p :: parts' => p ++ sep ++ join sep parts'
  end.

Definition block (open close : ascii) (level : nat)
    (parts : list (list ascii)) : list ascii :=
  match parts with
  | [] => [open; close]
  | _ :: _ =>
      open :: newline_indent (S level)
        ++ join (","%char :: newline_indent (S level)) parts
        ++ newline_indent level ++ [close]
  end.

Fixpoint encode (level : nat) (o : pyobj) : list ascii :=
  match o with
  | PVal v => encode_value v
  | PList items =>
      block "["%char "]"%char level (map (encode (S level)) items)
  | PDict items =>
      block "{"%char "}"%char level
        (map (λ kv, encode_string kv.1 ++ Text.chars ": "
                      ++ encode (S level) kv.2) items)
  end.

Definition dumps (o : pyobj) : string :=
  string_of_list_ascii (encode 0 o).

(** *** Reading

    A reader for JSON text over the same characters: [null], [true],
    [false], integers, strings, arrays and objects, with white space
    between the tokens.  Numbers with a fraction or an exponent and
    escapes of characters beyond the 256 of [ascii] are outside the
    values of this development and are refused.  The fuel bounds the
    nesting and the number of items; the length of the text is always
    enough. *)

Definition is_space (c : ascii) : bool :=
  bool_decide (c = " "%char) || bool_decide (c = "009"%char)
  || bool_decide (c = "010"%char) || bool_decide (c = "013"%char).

Fixpoint skip_space (s : list ascii) : list ascii :=
  match s with
  | c :: s' => if is_space c then skip_space s' else s
  | [] => []
  end.

Definition is_digit (c : ascii) : bool :=
  ((48 <=? N_of_ascii c) && (N_of_ascii c <=? 57))%N.

Fixpoint digits (s : list ascii) : list ascii * list ascii :=
  match s with
  | c :: s' =>
      if is_digit c then let (ds, r) := digits s' in (c :: ds, r)
      else ([], s)
  | [] => ([], [])
  end.

Definition hexval (c : ascii) : option N :=
  let n := N_of_ascii c in
  if ((48 <=? n) && (n <=? 57))%N then Some (n - 48)%N
  else if ((97 <=? n) && (n <=? 102))%N then Some (n - 87)%N
  else if ((65 <=? n) && (n <=? 70))%N then Some (n - 55)%N
  else None.

Definition unescape (c : ascii) : option ascii :=
  if bool_decide (c = dquote) then Some dquote
  else if bool_decide (c = backslash) then Some backslash
  else if bool_decide (c = "/"%char) then Some "/"%char
  else if bool_decide (c = "n"%char) then Some "010"%char
  else if bool_decide (c = "r"%char) then Some "013"%char
  else if bool_decide (c = "t"%char) then Some "009"%char
  else if bool_decide (c = "b"%char) then Some "008"%char
  else if bool_decide (c = "f"%char) then Some "012"%char
  else None.

Definition unicode (h1 h2 h3 h4 : ascii) : option ascii :=
  a ← hexval h1; b ← hexval h2; c ← hexval h3; d ← hexval h4;
  if bool_decide (a = 0%N ∧ b = 0%N) then Some (ascii_of_N (16 * c + d))
  else None.

(** The characters of a string literal after its opening quote, and the
    text after its closing quote. *)
Fixpoint read_string (s : list ascii) : option (list ascii * list ascii) :=
  match s with
  | [] => None
  | c :: s1 =>
      if bool_decide (c = dquote) then Some ([], s1)
      else if bool_decide (c = backslash) then
        match s1 with
        | [] => None
        | e :: s2 =>
            if bool_decide (e = "u"%char) then
              match s2 with
              | h1 :: h2 :: h3 :: h4 :: s3 =>
                  x ← unicode h1 h2 h3 h4;
                  '(str, r) ← read_string s3;
                  Some (x :: str, r)
              | _ => None
              end
            else
              x ← unescape e;
              '(str, r) ← read_string s2;
              Some (x :: str, r)
        end
      else if (N_of_ascii c <? 32)%N then None
      else '(str, r) ← read_string s1; Some (c :: str, r)
  end.

Definition read_int (s : list ascii) : option (Z * list ascii) :=
  let (sign, s1) :=
    match s with
    | c :: s' => if bool_decide (c = "-"%char) then ([c], s') else ([], s)
    | [] => ([], s)
    end in
  let (ds, r) := digits s1 in
  match ds, r with
  | [], _ => None
  | _, c :: _ =>
      if bool_decide (c = "."%char) || bool_decide (c = "e"%char)
         || bool_decide (c = "E"%char) then None
      else
        d ← NilZero.int_of_string (string_of_list_ascii (sign ++ ds));
        Some (Z.of_int d, r)
  | _, [] =>
      d ← NilZero.int_of_string (string_of_list_ascii (sign ++ ds));
      Some (Z.of_int d, r)
  end.

Fixpoint read_value (fuel : nat) (s : list ascii)
  : option (json * list ascii) :=
  match fuel with
  | O => None
  | S fuel' =>
      match skip_space s with
      | [] => None
      | c :: r =>
          if bool_decide (c = dquote) then
            '(str, r1) ← read_string r;
            Some (JStr (string_of_list_ascii str), r1)
          else if bool_decide (c = "["%char) then
            match skip_space r with
            | c' :: r1 =>
                if bool_decide (c' = "]"%char) then Some (JList [], r1)
                else '(vs, r2) ← read_items fuel' r; Some (JList vs, r2)
            | [] => None
            end
          else if bool_decide (c = "{"%char) then
            match skip_space r with
            | c' :: r1 =>
                if bool_decide (c' = "}"%char) then Some (JDict [], r1)
                else '(ms, r2) ← read_members fuel' r;
                     Some (JDict (dict_of ms), r2)
            | [] => None
            end
          else
            match c :: r with
            | "n"%char :: "u"%char :: "l"%char :: "l"%char :: r1 =>
                Some (JNull, r1)
            | "t"%char :: "r"%char :: "u"%char :: "e"%char :: r1 =>
                Some (JBool true, r1)
            | "f"%char :: "a"%char :: "l"%char :: "s"%char :: "e"%char
                :: r1 => Some (JBool false, r1)
            | _ => '(z, r1) ← read_int (c :: r); Some (JInt z, r1)
            end
      end
  end
with read_items (fuel : nat) (s : list ascii)
  : option (list json * list ascii) :=
  match fuel with
  | O => None
  | S fuel' =>
      '(v, r) ← read_value fuel' s;
      match skip_space r with
      | c :: r1 =>
          if bool_decide (c = ","%char) then
            '(vs, r2) ← read_items fuel' r1; Some (v :: vs, r2)
          else if bool_decide (c = "]"%char) then Some ([v], r1)
          else None
      | [] => None
      end
  end
with read_members (fuel : nat) (s : list ascii)
  : option (list (string * json) * list ascii) :=
  match fuel with
  | O => None
  | S fuel' =>
      match skip_space s with
      | q :: r =>
          if bool_decide (q = dquote) then
            '(k, r1) ← read_string r;
            match skip_space r1 with
            | c :: r2 =>
                if bool_decide (c = ":"%char) then
                  '(v, r3) ← read_value fuel' r2;
                  match skip_space r3 with
                  | c' :: r4 =>
                      if bool_decide (c' = ","%char) then
                        '(ms, r5) ← read_members fuel' r4;
                        Some ((string_of_list_ascii k, v) :: ms, r5)
                      else if bool_decide (c' = "}"%char) then
                        Some ([(string_of_list_ascii k, v)], r4)
                      else None
                  | [] => None
                  end
                else None
            | [] => None
            end
          else None
      | [] => None
      end
  end.

Definition loads (text : string) : option json :=
  let s := Text.chars text in
  '(v, r) ← read_value (S (length s)) s;
  match skip_space r with
  | [] => Some v
  | _ :: _ => None
  end.

(** *** Reading back

    What [loads] gives for the text of an object: the same tree, with
    each [bytes] value as the string [default=str] made of it. *)
Fixpoint loaded (o : pyobj) : json :=
  match o with
  | PVal VNone => JNull
  | PVal (VInt z) => JInt z
  | PVal (VStr s) => JStr s
  | PVal (VBytes b) => JStr (str (VBytes b))
  | PList items => JList (map loaded items)
  | PDict items => JDict (map (λ kv, (kv.1, loaded kv.2)) items)
  end.

(** The objects Python can build: no dictionary has a key twice. *)
Fixpoint well_formed (o : pyobj) : Prop :=
  match o with
  | PVal _ => True
  | PList items => foldr (λ x P, well_formed x ∧ P) True items
  | PDict items =>
      NoDup (keys items) ∧ foldr (λ kv P, well_formed kv.2 ∧ P) True items
  end.

(** Fuel that is enough to read the text of an object. *)
Fixpoint weight (o : pyobj) : nat :=
  match o with
  | PVal _ => 1
  | PList items => S (foldr (λ x n, S (weight x + n)) 0%nat items)
  | PDict items => S (foldr (λ kv n, S (weight kv.2 + n)) 0%nat items)
  end.

(** The text of an object begins with a character that is neither
    white space nor a closing bracket. *)
Definition opens_value (c : ascii) : Prop :=
  is_space c = false ∧ c ≠ "]"%char ∧ c ≠ "}"%char.

(** The text after a run of digits is not a digit. *)
Definition ends_number (rest : list ascii) : Prop :=
  match rest with [] => True | c :: _ => is_digit c = false end.

(** The text after a value does not go on as a number. *)
Definition delimited (rest : list ascii) : Prop :=
  match rest with
  | [] => True
  | c :: _ =>
      is_digit c = false ∧ c ≠ "."%char ∧ c ≠ "e"%char ∧ c ≠ "E"%char
  end.

End Json.

(** ** The world

    What the process can see and change: the files by path, among them
    the database, and a log of what it printed and which statements it
    handed to the engine.

    A database file stands for the database it holds, its tables and
    rows, not for its bytes: what a statement reads is this content, and
    a statement that only reads leaves it as it is.  The files SQLite
    keeps beside a database for its own use (a roll-back journal, the
    [-wal] and [-shm] files of a write-ahead log) and the bytes it moves
    between them and the database file when it reads or when the
    connection is closed are not part of the world.

    A path is the name of one file: the world has no directories, no
    links and no second spelling of a path, and opening a file for
    writing succeeds. *)

Inductive file : Type :=
  | DatabaseFile (db : database)
  | TextFile (content : string).

Inductive event : Type :=
  | Printed (line : string)
  | Connected (path : string)
  | Executed (path : string) (sql : statement)
  | Written (path : string)
  | Closed (path : string).

Record world : Type := {
  files : gmap string file;
  log : list event;
}.

Inductive exn : Type :=
  | OperationalError
  | DatabaseError
  | OverflowError
  | ValueError
  | TypeError
  | KeyError
  | SystemExit (code : Z).

Inductive outcome (A : Type) : Type :=
  | Ok (a : A)
  | Raise (e : exn).
Global Arguments Ok {A} a.
Global Arguments Raise {A} e.

(** A computation runs in a world and ends with a result or an
    exception; what it did to the world before an exception stays
    done. *)
Definition M (A : Type) : Type := world → outcome A * world.

Global Instance M_ret : MRet M := λ A a w, (Ok a, w).

Global Instance M_bind : MBind M := λ A B k m w,
  match m w with
  | (Ok a, w') => k a w'
  | (Raise e, w') => (Raise e, w')
  end.

Definition raise {A} (e : exn) : M A := λ w, (Raise e, w).

Definition emit (e : event) : M unit :=
  λ w, (Ok (), {| files := files w; log := log w ++ [e] |}).

Definition print (line : string) : M unit := emit (Printed line).

Definition path_exists (path : string) : M bool :=
  λ w, (Ok (bool_decide (is_Some (files w !! path))), w).

(** [open(path, 'w')], write, close: the file holds the text, whatever
    was at the path before. *)
Definition write_text (path content : string) : M unit :=
  λ w, (Ok (), {| files := <[path := TextFile content]> (files w);
                  log := log w ++ [Written path] |}).

(** A loop that threads an accumulator. *)
Fixpoint for_each {A S} (xs : list A) (body : S → A → M S) (s : S) : M S :=
  match xs with
  | [] => mret s
  | x :: xs' => s' ← body s x; for_each xs' body s'
  end.

(** ** numpy

    [np.frombuffer(b, dtype=np.float32)]: the buffer cut into elements
    of four bytes.  An element is kept as its four bytes; their reading
    as a number plays no part here. *)

Record float32 : Type := { f0 : byte; f1 : byte; f2 : byte; f3 : byte }.

Inductive pyval : Type :=
  | Plain (v : value)
  | NdArray (a : list float32).

Fixpoint elements (b : list byte) : list float32 :=
  match b with
  | b0 :: b1 :: b2 :: b3 :: b' =>
      {| f0 := b0; f1 := b1; f2 := b2; f3 := b3 |} :: elements b'
  | _ => []
  end.

Definition frombuffer (v : value) : M (list float32) :=
  match v with
  | VBytes b =>
      if bool_decide (Z.of_nat (length b) `mod` 4 = 0)
      then mret (elements b) else raise ValueError
  | _ => raise TypeError
  end.

(** ** class DevDiggerDB *)

(** [Path.home() / "Library" / "Application Support" / "devdigger" /
    "devdigger.db"] *)
Definition DB_PATH (home : string) : string :=
  home +:+ "/Library/Application Support/devdigger/devdigger.db".

Record DevDiggerDB : Type := { db_path : string }.

(** [DevDiggerDB(db_path)]: [__init__] keeps the path and connects;
    [sqlite3.connect] opens the file and creates it, empty, when there is
    none.  (It can do so where the directory of the path exists; the
    world has no directories.) *)
Definition connect (path : string) : M DevDiggerDB :=
  λ w, (Ok {| db_path := path |},
        {| files := match files w !! path with
                    | Some _ => files w
                    | None => <[path := TextFile ""]> (files w)
                    end;
           log := log w ++ [Connected path] |}).

(** The engine reads the file and runs the statement.  An empty file is
    a database without tables.  Reading leaves the content of the
    database as it is (see the note on the world for the files SQLite
    keeps beside it). *)
Definition engine (path : string) (sql : statement) : M (list row) :=
  λ w, match files w !! path with
       | Some (DatabaseFile db) =>
           match Query.run sql db with
           | Some rows => (Ok rows, w)
           | None => (Raise OperationalError, w)
           end
       | Some (TextFile content) =>
           if bool_decide (content = "") then (Raise OperationalError, w)
           else (Raise DatabaseError, w)
       | None => (Raise OperationalError, w)
       end.

(** [self.cursor.execute(sql, params)] followed by [fetchall()]: the
    parameters are bound, then the statement goes to the engine. *)
Definition execute (self : DevDiggerDB) (sql : statement) : M (list row) :=
  if Query.bindable sql then
    _ ← emit (Executed (db_path self) sql);
    engine (db_path self) sql
  else raise OverflowError.

(** [row[k]] *)
Definition item {V} (k : string) (d : list (string * V)) : M V :=
  match dict_get k d with
  | Some v => mret v
  | None => raise KeyError
  end.

(** [self.cursor.fetchone()[k]] *)
Definition fetchone_item (k : string) (rows : list row) : M value :=
  match rows with
  | [] => raise TypeError
  | r :: _ => item k r
  end.

Definition tables : list string :=
  ["sources"; "documents"; "code_examples"; "collections"].

Definition get_stats (self : DevDiggerDB) : M (list (string * value)) :=
  for_each tables
    (λ stats table,
       rows ← execute self (CountRows table);
       n ← fetchone_item "count" rows;
       mret (dict_set table n stats))
    [].

Definition list_sources (self : DevDiggerDB) : M (list row) :=
  rows ← execute self SelectSources;
  mret (dict_of <$> rows).

Definition search (self : DevDiggerDB) (query : string) (limit : Z)
  : M (list row) :=
  rows ← execute self (SearchDocuments ("%" +:+ query +:+ "%") limit);
  mret (dict_of <$> rows).

Definition get_documents (self : DevDiggerDB) (source_id : value)
  : M (list row) :=
  rows ← (if truthy source_id
          then execute self (SelectDocumentsOf source_id)
          else execute self SelectDocuments);
  mret (dict_of <$> rows).

Definition get_code_examples (self : DevDiggerDB) (language : value)
  : M (list row) :=
  rows ← (if truthy language
          then execute self (SelectCodeExamplesIn language)
          else execute self SelectCodeExamples);
  mret (dict_of <$> rows).

Definition plain (d : row) : list (string * pyval) :=
  prod_map id Plain <$> d.

(** The body of the loop of [get_embeddings]: [doc = dict(row)], and
    the blob under [embedding] decoded when it is truthy. *)
Definition decode (r : row) : M (list (string * pyval)) :=
  let doc := dict_of r in
  embedding ← item "embedding" doc;
  if truthy embedding
  then a ← frombuffer embedding;
       mret (dict_set "embedding" (NdArray a) (plain doc))
  else mret (plain doc).

Definition get_embeddings (self : DevDiggerDB)
  : M (list (list (string * pyval))) :=
  rows ← execute self SelectEmbeddings;
  for_each rows (λ results r, doc ← decode r; mret (results ++ [doc])) [].

Definition records (rows : list row) : pyobj :=
  PList ((λ d : row, PDict (prod_map id PVal <$> d)) <$> rows).

Definition export_to_json (self : DevDiggerDB) (output_path : string)
  : M string :=
  srcs ← list_sources self;
  docs ← get_documents self VNone;
  exs ← get_code_examples self VNone;
  let data := PDict [("sources", records srcs); ("documents", records docs);
                     ("code_examples", records exs)] in
  _ ← write_text output_path (Json.dumps data);
  mret output_path.


(** [self.conn.close()]: the content of the database is not touched. *)
Definition close (self : DevDiggerDB) : M unit :=
  emit (Closed (db_path self)).

(** ** The usage example and the entry point *)

Definition newline : string := String "010" "".

Definition banner : string := string_of_list_ascii (replicate 60 "="%char).

(** [s[:100].replace('\n', ' ')] *)
Definition preview (s : string) : string :=
  string_of_list_ascii
    ((λ c, if bool_decide (c = "010"%char) then " "%char else c)
       <$> take 100 (Text.chars s)).

Definition example_basic_usage (home : string) : M unit :=
  _ ← print banner;
  _ ← print "DEVDIGGER DATABASE USAGE EXAMPLE";
  _ ← print banner;
  db ← connect (DB_PATH home);
  stats ← get_stats db;
  _ ← print (newline +:+ "📊 Database Statistics:");
  _ ← for_each stats
        (λ _ entry, print ("  " +:+ entry.1 +:+ ": " +:+ Py.str entry.2)) ();
  n ← item "sources" stats;
  if bool_decide (n = VInt 0) then
    print (newline +:+
           "⚠️  No data found! Please crawl some websites in DevDigger first.")
  else
    _ ← print (newline +:+ "📚 Sources:");
    srcs ← list_sources db;
    _ ← for_each (take 5 srcs)
          (λ _ source,
             title ← item "title" source;
             shown ← (if truthy title then mret title else item "url" source);
             print ("  - " +:+ Py.str shown)) ();
    _ ← print (newline +:+ "🔍 Searching for 'react':");
    results ← search db "react" 3;
    _ ← for_each results
          (λ i result,
             content ← item "content" result;
             _ ← match content with
                 | VStr s =>
                     print ("  " +:+ Py.int_str i +:+ ". " +:+ preview s
                            +:+ "...")
                 | _ => raise TypeError
                 end;
             mret (i + 1)) 1;
    _ ← print (newline +:+ "💻 Code Examples:");
    exs ← get_code_examples db VNone;
    _ ← for_each (take 3 exs)
          (λ _ example,
             language ← item "language" example;
             let description :=
               default (VStr "No description") (dict_get "description" example)
             in
             print ("  - " +:+ Py.str language +:+ ": "
                    +:+ Py.str description)) ();
    close db.

(** The body under [if __name__ == "__main__"]. *)
Definition main (home : string) : M unit :=
  present ← path_exists (DB_PATH home);
  _ ← (if negb present then
         _ ← print ("❌ Database not found at: " +:+ DB_PATH home);
         _ ← print (newline +:+
                    "Please use DevDigger to crawl some data first!");
         raise (SystemExit 1)
       else mret ());
  example_basic_usage home.

(** The exit status of the process: that of [exit], 1 after an uncaught
    exception, 0 at the end of the script. *)
Definition exit_status (o : outcome unit) : Z :=
  match o with
  | Ok _ => 0
  | Raise (SystemExit code) => code
  | Raise _ => 1
  end.

Definition run_script (home : string) (w : world) : Z * world :=
  let (o, w') := main home w in (exit_status o, w').

(** ** Decoded records

    The value [get_embeddings] leaves under [embedding] for a blob: the
    array of its elements, or the blob itself when it is empty. *)

Definition decoded (b : list byte) : pyval :=
  if bool_decide (b = []) then Plain (VBytes b) else NdArray (elements b).

Definition embedding_record (ds : Document * Source) (b : list byte)
  : list (string * pyval) :=
  [("id", Plain (doc_id ds.1)); ("content", Plain (VStr (doc_content ds.1)));
   ("embedding", decoded b);
   ("url", Plain (src_url ds.2)); ("title", Plain (src_title ds.2))].




(** ** Effects on the files

    A computation keeps the files when no run of it, finished or
    stopped by an exception, changes any file; it writes only [path]
    when every other file stays as it was. *)

Definition keeps_files {A} (m : M A) : Prop :=
  ∀ w, files (m w).2 = files w.


(** A computation runs on a database when, started with the database
    file in place, it ends without an exception, keeps the files, only
    adds to the log, and its result satisfies [Q]. *)
Definition runs (path : string) (db : database) {A} (m : M A)
    (Q : A → Prop) : Prop :=
  ∀ w, files w !! path = Some (DatabaseFile db) →
       ∃ a w' l, m w = (Ok a, w') ∧ files w' = files w
                 ∧ log w' = log w ++ l ∧ Q a.

(** ** Worlds after a run *)

(** The world after a statement went to the engine. *)
Definition logged (e : event) (w : world) : world :=
  {| files := files w; log := log w ++ [e] |}.

(** The world after [get_stats]. *)
Definition counted (w : world) (path : string) : world :=
  foldl (λ w table, logged (Executed path (CountRows table)) w) w tables.

(** ** A small database

    Two sources, three documents (one of them without a source in the
    table, one without embedding), one code example. *)

Module Sample.

Definition home : string := "/Users/ada".

Definition react_site : Source :=
  {| src_id := VInt 1; src_type := VStr "website";
     src_url := VStr "https://react.dev"; src_title := VStr "React";
     src_crawl_status := VStr "completed";
     src_created_at := VStr "2024-01-05 10:00:00" |}.

Definition vue_site : Source :=
  {| src_id := VInt 2; src_type := VStr "website";
     src_url := VStr "https://vuejs.org"; src_title := VNone;
     src_crawl_status := VStr "completed";
     src_created_at := VStr "2024-02-01 09:30:00" |}.

Definition hooks : Document :=
  {| doc_id := VInt 10; doc_source_id := VInt 1;
     doc_content := "Learn React hooks"; doc_chunk_index := 1;
     doc_embedding := Some [x00; x00; x80; x3f] |}.

Definition intro : Document :=
  {| doc_id := VInt 11; doc_source_id := VInt 1;
     doc_content := "Getting started"; doc_chunk_index := 0;
     doc_embedding := None |}.

Definition stray : Document :=
  {| doc_id := VInt 12; doc_source_id := VInt 7;
     doc_content := "a page whose source is gone"; doc_chunk_index := 0;
     doc_embedding := Some [x00; x00; x00; x40] |}.

Definition snippet : CodeExample :=
  {| ex_id := VInt 1; ex_source_id := VInt 2;
     ex_language := VStr "javascript"; ex_description := VStr "a counter";
     ex_code := VStr "let n = 0" |}.

Definition db : database :=
  {| columns := {| documents_source_id := Sql.INTEGER;
                   code_examples_language := Sql.TEXT |};
     sources := [react_site; vue_site];
     documents := [hooks; intro; stray];
     code_examples := [snippet];
     collections := [] |}.

Definition world : world :=
  {| files := {[ DB_PATH home := DatabaseFile db ]}; log := [] |}.

Definition reader : DevDiggerDB := {| db_path := DB_PATH home |}.

End Sample.

(** ** A database that keeps the invariants of the data model

    Every document has its source, every blob whole elements; one blob
    is empty. *)

Module Tidy.

Definition hollow : Document :=
  {| doc_id := VInt 13; doc_source_id := VInt 2;
     doc_content := "Vue basics"; doc_chunk_index := 0;
     doc_embedding := Some [] |}.

Definition db : database :=
  {| columns := columns Sample.db;
     sources := sources Sample.db;
     documents := [Sample.hooks; Sample.intro; hollow];
     code_examples := code_examples Sample.db;
     collections := [] |}.

Definition world : world :=
  {| files := {[ DB_PATH Sample.home := DatabaseFile db ]}; log := [] |}.

End Tidy.

(** ** A database whose identifiers are text

    The columns are declared TEXT and hold text. *)

Module Textual.

Definition site : Source :=
  {| src_id := VStr "1"; src_type := VStr "website";
     src_url := VStr "https://svelte.dev"; src_title := VStr "Svelte";
     src_crawl_status := VStr "completed";
     src_created_at := VStr "2024-03-01 08:00:00" |}.

Definition page : Document :=
  {| doc_id := VStr "d1"; doc_source_id := VStr "1";
     doc_content := "Install Svelte"; doc_chunk_index := 0;
     doc_embedding := None |}.

Definition db : database :=
  {| columns := {| documents_source_id := Sql.TEXT;
                   code_examples_language := Sql.TEXT |};
     sources := [site]; documents := [page];
     code_examples := []; collections := [] |}.

Definition world : world :=
  {| files := {[ DB_PATH Sample.home := DatabaseFile db ]}; log := [] |}.

End Textual.

(** ** LangChain documents

    [langchain.schema.Document(page_content=..., metadata=...)]: an
    object that keeps the two arguments it is made from.  The checks the
    library makes on them are left out; the content of a document is
    text in every row. *)

Module Langchain.

Record Document : Type := {
  page_content : value;
  metadata : list (string * value);
}.

End Langchain.

(** [to_langchain_documents]: [langchain] tells whether the import of
    the library succeeds. *)
Definition to_langchain_documents (langchain : bool) (self : DevDiggerDB)
  : M (list Langchain.Document) :=
  if negb langchain then
    _ ← print "Install langchain: pip install langchain";
    mret []
  else
    docs ← get_documents self VNone;
    for_each docs
      (λ documents doc,
         content ← item "content" doc;
         source_id ← item "source_id" doc;
         chunk_index ← item "chunk_index" doc;
         id ← item "id" doc;
         mret (documents
               ++ [{| Langchain.page_content := content;
                      Langchain.metadata :=
                        dict_of [("source_id", source_id);
                                 ("chunk_index", chunk_index);
                                 ("id", id)] |}]))
      [].

(** ** A database with a damaged blob

    The small database with one more document, whose blob was cut after
    three bytes. *)

Module Damaged.

Definition torn : Document :=
  {| doc_id := VInt 13; doc_source_id := VInt 2;
     doc_content := "Vue basics"; doc_chunk_index := 0;
     doc_embedding := Some [x00; x00; x80] |}.

Definition db : database :=
  {| columns := columns Sample.db;
     sources := sources Sample.db;
     documents := documents Sample.db ++ [torn];
     code_examples := code_examples Sample.db;
     collections := collections Sample.db |}.

Definition world : world :=
  {| files := {[ DB_PATH Sample.home := DatabaseFile db ]}; log := [] |}.

End Damaged.

(** A character of plain ASCII text: printable, or the line feed. *)
Definition plain_ascii (c : ascii) : bool :=
  bool_decide (c = "010"%char)
  || (32 <=? N_of_ascii c)%N && (N_of_ascii c <=? 126)%N.

(** ** What a run does besides printing

    The events of a log that are not printed lines: connecting,
    statements, writing and closing, in the order they happened. *)

Definition silent (e : event) : bool :=
  match e with Printed _ => false | _ => true end.

Definition actions (l : list event) : list event :=
  filter (λ e, Is_true (silent e)) l.

(** A computation performs [acts] on a database when, started with the
    database file in place, it ends without an exception, leaves the
    database in place, and adds to the log, besides printed lines,
    exactly the events [acts]; its result satisfies [Q]. *)
Definition performs (path : string) (db : database) {A} (m : M A)
    (acts : list event) (Q : A → Prop) : Prop :=
  ∀ w, files w !! path = Some (DatabaseFile db) →
       ∃ a w' l, m w = (Ok a, w')
                 ∧ files w' !! path = Some (DatabaseFile db)
                 ∧ log w' = log w ++ l
                 ∧ actions l = acts ∧ Q a.

(** * Properties *)

(** ** Running computations *)

Lemma sample_database_file :
  files Sample.world !! db_path Sample.reader = Some (DatabaseFile Sample.db).
Proof. reflexivity. Qed.

Lemma bind_ok {A B} (m : M A) (k : A → M B) w a w' :
  m w = (Ok a, w') → (m ≫= k) w = k a w'.
Proof. unfold mbind, M_bind. by intros ->. Qed.

Lemma bind_raise {A B} (m : M A) (k : A → M B) w e w' :
  m w = (Raise e, w') → (m ≫= k) w = (Raise e, w').
Proof. unfold mbind, M_bind. by intros ->. Qed.

Lemma bind_inv {A B} (m : M A) (k : A → M B) w b w' :
  (m ≫= k) w = (Ok b, w') →
  ∃ a w1, m w = (Ok a, w1) ∧ k a w1 = (Ok b, w').
Proof.
  unfold mbind, M_bind. destruct (m w) as [[a|e] w1]; [eauto | done].
Qed.

Lemma execute_inv self sql w rows w' :
  execute self sql w = (Ok rows, w') →
  ∃ db, files w !! db_path self = Some (DatabaseFile db)
        ∧ Query.bindable sql = true
        ∧ Query.run sql db = Some rows
        ∧ w' = logged (Executed (db_path self) sql) w.
Proof.
  unfold execute. destruct (Query.bindable sql); [|done].
  intros (u & w1 & Hemit & Hrun)%bind_inv. injection Hemit as <- <-.
  revert Hrun.
  unfold engine; simpl. destruct (files w !! db_path self) as [[db|c]|]; simpl.
  - destruct (Query.run sql db) eqn:Hq; [|done]. intros [= <- <-].
    by exists db.
  - by case_bool_decide.
  - done.
Qed.

Lemma execute_run self sql w db rows :
  files w !! db_path self = Some (DatabaseFile db) →
  Query.bindable sql = true →
  Query.run sql db = Some rows →
  execute self sql w = (Ok rows, logged (Executed (db_path self) sql) w).
Proof.
  intros Hf Hb Hr. unfold execute. rewrite Hb.
  unfold mbind, M_bind, emit, engine; simpl. by rewrite Hf, Hr.
Qed.

(** [dict(row)] changes nothing in a row whose columns have distinct
    names, as the rows of the eight statements have. *)
Lemma dict_of_source_row s : dict_of (Query.source_row s) = Query.source_row s.
Proof. reflexivity. Qed.

Lemma dict_of_search_row ds :
  dict_of (Query.search_row ds) = Query.search_row ds.
Proof. reflexivity. Qed.

Lemma dict_of_document_row d :
  dict_of (Query.document_row d) = Query.document_row d.
Proof. reflexivity. Qed.

Lemma dict_of_code_example_row cs :
  dict_of (Query.code_example_row cs) = Query.code_example_row cs.
Proof. reflexivity. Qed.

Lemma dict_of_embedding_row ds :
  dict_of (Query.embedding_row ds) = Query.embedding_row ds.
Proof. reflexivity. Qed.

Lemma fmap_dict_of {A} (f : A → row) (l : list A) :
  (∀ x, dict_of (f x) = f x) → dict_of <$> (f <$> l) = f <$> l.
Proof.
  intros Hf. rewrite <- list_fmap_compose. apply list_fmap_ext.
  intros ? x _. apply Hf.
Qed.

(** ** What each method computes on a database

    With the database file in place, a method's result is the result of
    its statement: these equations are the bridge between the methods and
    the query layer. *)

Section Methods.
Context (self : DevDiggerDB) (w : world) (db : database).
Hypothesis database_file : files w !! db_path self = Some (DatabaseFile db).

Lemma list_sources_eq :
  list_sources self w
  = (Ok (Query.select_sources db),
     logged (Executed (db_path self) SelectSources) w).
Proof.
  unfold list_sources.
  erewrite bind_ok by (by eapply execute_run).
  unfold Query.select_sources.
  by rewrite (fmap_dict_of _ _ dict_of_source_row).
Qed.

Lemma search_eq query limit :
  search self query limit w
  = let sql := SearchDocuments ("%" +:+ query +:+ "%") limit in
    if Sql.fits_int64 limit
    then (Ok (Query.search_documents ("%" +:+ query +:+ "%") limit db),
          logged (Executed (db_path self) sql) w)
    else (Raise OverflowError, w).
Proof.
  unfold search. destruct (Sql.fits_int64 limit) eqn:Hfit; simpl.
  - erewrite bind_ok by (by eapply execute_run).
    unfold Query.search_documents.
    by rewrite (fmap_dict_of _ _ dict_of_search_row).
  - unfold execute; simpl. rewrite Hfit. by erewrite bind_raise.
Qed.

Lemma get_documents_eq source_id :
  get_documents self source_id w
  = if truthy source_id then
      if Sql.bindable source_id
      then (Ok (Query.select_documents_of source_id db),
            logged (Executed (db_path self) (SelectDocumentsOf source_id)) w)
      else (Raise OverflowError, w)
    else (Ok (Query.select_documents db),
          logged (Executed (db_path self) SelectDocuments) w).
Proof.
  unfold get_documents. destruct (truthy source_id).
  - destruct (Sql.bindable source_id) eqn:Hfit.
    + erewrite bind_ok by (by eapply execute_run).
      unfold Query.select_documents_of.
      by rewrite (fmap_dict_of _ _ dict_of_document_row).
    + unfold execute; simpl. rewrite Hfit. by erewrite bind_raise.
  - erewrite bind_ok by (by eapply execute_run).
    unfold Query.select_documents.
    by rewrite (fmap_dict_of _ _ dict_of_document_row).
Qed.

Lemma get_code_examples_eq language :
  get_code_examples self language w
  = if truthy language then
      if Sql.bindable language
      then (Ok (Query.select_code_examples_in language db),
            logged (Executed (db_path self) (SelectCodeExamplesIn language))
                   w)
      else (Raise OverflowError, w)
    else (Ok (Query.select_code_examples db),
          logged (Executed (db_path self) SelectCodeExamples) w).
Proof.
  unfold get_code_examples. destruct (truthy language).
  - destruct (Sql.bindable language) eqn:Hfit.
    + erewrite bind_ok by (by eapply execute_run).
      unfold Query.select_code_examples_in.
      by rewrite (fmap_dict_of _ _ dict_of_code_example_row).
    + unfold execute; simpl. rewrite Hfit. by erewrite bind_raise.
  - erewrite bind_ok by (by eapply execute_run).
    unfold Query.select_code_examples.
    by rewrite (fmap_dict_of _ _ dict_of_code_example_row).
Qed.

End Methods.

Section Stats.
Context (self : DevDiggerDB) (w : world) (db : database).
Hypothesis database_file : files w !! db_path self = Some (DatabaseFile db).

Lemma get_stats_eq :
  get_stats self w
  = (Ok [("sources", VInt (Z.of_nat (length (sources db))));
         ("documents", VInt (Z.of_nat (length (documents db))));
         ("code_examples", VInt (Z.of_nat (length (code_examples db))));
         ("collections", VInt (Z.of_nat (length (collections db))))],
     counted w (db_path self)).
Proof.
  unfold get_stats, tables, counted; simpl.
  repeat (erewrite bind_ok;
          [| erewrite bind_ok by (by eapply execute_run); reflexivity ]).
  reflexivity.
Qed.

End Stats.

(** ** get_stats *)

(** C6: [get_stats()] returns a mapping whose key set is exactly the four
    table names [sources], [documents], [code_examples] and
    [collections], and every value is a non-negative integer, the number
    of rows of that table. *)
Theorem get_stats_counts self w db :
  files w !! db_path self = Some (DatabaseFile db) →
  ∃ stats w',
    get_stats self w = (Ok stats, w')
    ∧ NoDup (keys stats)
    ∧ dom (list_to_map stats : gmap string value)
      = {[ "sources"; "documents"; "code_examples"; "collections" ]}
    ∧ dict_get "sources" stats = Some (VInt (Z.of_nat (length (sources db))))
    ∧ dict_get "documents" stats
      = Some (VInt (Z.of_nat (length (documents db))))
    ∧ dict_get "code_examples" stats
      = Some (VInt (Z.of_nat (length (code_examples db))))
    ∧ dict_get "collections" stats
      = Some (VInt (Z.of_nat (length (collections db))))
    ∧ ∀ k v, dict_get k stats = Some v → ∃ n, v = VInt n ∧ 0 ≤ n.
Proof.
  intros Hdb. eexists _, _. split; [by apply get_stats_eq|].
  split; [|split; [|repeat split]]; try reflexivity.
  - unfold keys; simpl. by apply (bool_decide_unpack _).
  - intros k v. simpl.
    repeat (case_bool_decide; [intros [= <-]; eexists; split; [done|lia]|]).
    done.
Qed.

Lemma get_stats_counts_witness :
  ∃ stats w',
    get_stats Sample.reader Sample.world = (Ok stats, w')
    ∧ dict_get "documents" stats = Some (VInt 3).
Proof.
  destruct (get_stats_counts Sample.reader Sample.world Sample.db
              sample_database_file)
    as (stats & w' & Hrun & _ & _ & _ & Hdocs & _).
  by exists stats, w'.
Defined.

(** ** The order of ORDER BY *)

Global Instance sql_le_total : Total (λ a b : value, Is_true (Sql.le a b)).
Proof.
  intros [|x|x|x] [|y|y|y]; simpl; auto.
  - destruct (Z.le_ge_cases x y); [left | right];
      by apply Is_true_true, Z.leb_le.
  - apply String.le_total.
  - apply String.le_total.
Qed.

Global Instance sql_le_trans :
  Transitive (λ a b : value, Is_true (Sql.le a b)).
Proof.
  intros [|x|x|x] [|y|y|y] [|z|z|z]; simpl; try done.
  - rewrite !Is_true_true, !Z.leb_le. lia.
  - apply (transitivity (R := String.le)).
  - apply (transitivity (R := String.le)).
Qed.

Global Instance newer_first_total : Total Query.newer_first.
Proof. intros a b. apply sql_le_total. Qed.

Global Instance newer_first_trans : Transitive Query.newer_first.
Proof. intros a b c Hab Hbc. eapply sql_le_trans; eassumption. Qed.

Global Instance by_chunk_index_total : Total Query.by_chunk_index.
Proof. intros a b. unfold Query.by_chunk_index. lia. Qed.

Global Instance by_chunk_index_trans : Transitive Query.by_chunk_index.
Proof. intros a b c. unfold Query.by_chunk_index. lia. Qed.

(** ** list_sources *)

(** C8: [list_sources()] returns all Source records, ordered by their
    creation time stamp in descending order: the records are those of a
    rearrangement of the table in which no source comes before a newer
    one. *)
Theorem list_sources_newest_first self w db :
  files w !! db_path self = Some (DatabaseFile db) →
  ∃ srcs w',
    list_sources self w = (Ok (Query.source_row <$> srcs), w')
    ∧ srcs ≡ₚ sources db
    ∧ StronglySorted
        (λ a b, Is_true (Sql.le (src_created_at b) (src_created_at a))) srcs.
Proof.
  intros Hdb. eexists _, _. split; [by apply list_sources_eq|]. split.
  - apply merge_sort_Permutation.
  - apply (StronglySorted_merge_sort Query.newer_first).
Qed.

Lemma list_sources_newest_first_witness :
  ∃ srcs w',
    list_sources Sample.reader Sample.world
    = (Ok (Query.source_row <$> srcs), w')
    ∧ srcs ≡ₚ [Sample.react_site; Sample.vue_site].
Proof.
  destruct (list_sources_newest_first Sample.reader Sample.world Sample.db
              sample_database_file) as (srcs & w' & Hrun & Hperm & _).
  by exists srcs, w'.
Defined.

(** ** get_documents *)








(** C10: called with a falsy [source_id] (0, the empty string, [None]),
    [get_documents] ignores the filter: it returns the records of all
    documents, in the order of the table and not by [chunk_index],
    whether or not some document has that very [source_id]. *)
Theorem get_documents_falsy self w db source_id :
  files w !! db_path self = Some (DatabaseFile db) →
  truthy source_id = false →
  ∃ w',
    get_documents self source_id w
    = (Ok (Query.document_row <$> documents db), w').
Proof.
  intros Hdb Hfalse. eexists.
  rewrite (get_documents_eq _ _ _ Hdb), Hfalse. reflexivity.
Qed.

Lemma get_documents_falsy_witness :
  ∃ w',
    get_documents Sample.reader (VStr "") Sample.world
    = (Ok (Query.document_row <$> [Sample.hooks; Sample.intro; Sample.stray]),
       w').
Proof.
  exact (get_documents_falsy Sample.reader Sample.world Sample.db (VStr "")
           sample_database_file eq_refl).
Defined.

(** ** LIMIT *)

Lemma limit_length {A} (n : Z) (l : list A) :
  0 ≤ n → Z.of_nat (length (Sql.limit n l)) ≤ n.
Proof.
  intros Hn. unfold Sql.limit. destruct (Z.ltb_spec n 0); [lia|].
  rewrite length_take. lia.
Qed.

(** ** LIKE *)

Lemma chars_app (a b : string) :
  Text.chars (a +:+ b) = Text.chars a ++ Text.chars b.
Proof. induction a as [|c a IH]; simpl; [done | by rewrite IH]. Qed.

Lemma starts_with_nil_r (p : list ascii) :
  Text.starts_with p [] = true → p = [].
Proof. by destruct p. Qed.

Lemma occurs_in_cons (p : list ascii) (c : ascii) (s : list ascii) :
  Text.occurs_in p (c :: s)
  = Text.starts_with p (c :: s) || Text.occurs_in p s.
Proof. reflexivity. Qed.

(** A pattern that begins with [%] matches when the rest matches here or
    further on. *)
Lemma pattern_compare_percent (p s : list ascii) :
  Sql.pattern_compare ("%"%char :: p) s
  = Sql.pattern_compare p s
    || match s with
       | [] => false
       | _ :: s' => Sql.pattern_compare ("%"%char :: p) s'
       end.
Proof. by destruct s. Qed.

Section Literal.
Lemma literal_plain_chars (q : string) :
  Sql.literal q = true → Sql.plain_chars (Text.chars q).
Proof.
  unfold Sql.literal, Sql.plain_chars. rewrite forallb_forall, Forall_forall.
  intros H c Hc%list_elem_of_In. specialize (H c Hc).
  rewrite !andb_true_iff, !negb_true_iff, !bool_decide_eq_false in H.
  tauto.
Qed.

Lemma c_string_plain (p rest : list ascii) :
  Sql.plain_chars p → Sql.c_string (p ++ rest) = p ++ Sql.c_string rest.
Proof.
  induction 1 as [|c p (_ & _ & Hc) _ IH]; simpl; [done|].
  rewrite bool_decide_false by done. by rewrite IH.
Qed.

(** A literal pattern followed by [%] matches only what begins with
    it, up to case. *)
Lemma pattern_compare_prefix (p s : list ascii) :
  Sql.plain_chars p →
  Sql.pattern_compare (p ++ ["%"%char]) s = true →
  Text.starts_with (Text.lower <$> p) (Text.lower <$> s) = true.
Proof.
  intros Hp. revert s.
  induction Hp as [|c p (Hc1 & Hc2 & _) _ IH]; intros s; [done|].
  simpl. rewrite !(bool_decide_false (c = _)) by done.
  destruct s as [|d s]; [done|]. simpl.
  intros [Hcd Hrest]%andb_true_iff. by rewrite Hcd, IH.
Qed.

Lemma pattern_compare_infix (p s : list ascii) :
  Sql.plain_chars p →
  Sql.pattern_compare ("%"%char :: p ++ ["%"%char]) s = true →
  Text.occurs_in (Text.lower <$> p) (Text.lower <$> s) = true.
Proof.
  intros Hp. induction s as [|d s IH]; rewrite pattern_compare_percent.
  - rewrite orb_false_r. intros H%pattern_compare_prefix; [|done].
    simpl in *. by rewrite H.
  - rewrite fmap_cons, occurs_in_cons.
    intros [H%pattern_compare_prefix | H%IH]%orb_true_iff; [|done|].
    + rewrite fmap_cons in H. by rewrite H.
    + rewrite H. apply orb_true_r.
Qed.

(** What occurs in a text up to its first NUL occurs in the text. *)
Lemma starts_with_c_string (p s : list ascii) :
  Text.starts_with p (Text.lower <$> Sql.c_string s) = true →
  Text.starts_with p (Text.lower <$> s) = true.
Proof.
  revert p. induction s as [|c s IH]; intros p; [done|]. simpl.
  case_bool_decide.
  - by intros ->%starts_with_nil_r.
  - destruct p as [|a p]; [done|]. simpl.
    intros [-> Hr]%andb_true_iff. by apply IH.
Qed.

Lemma occurs_in_c_string (p s : list ascii) :
  Text.occurs_in p (Text.lower <$> Sql.c_string s) = true →
  Text.occurs_in p (Text.lower <$> s) = true.
Proof.
  induction s as [|c s IH]; [done|]. simpl Sql.c_string.
  case_bool_decide.
  - simpl. rewrite orb_false_r. intros ->%starts_with_nil_r. done.
  - rewrite !fmap_cons, !occurs_in_cons.
    intros [Hl | Hr%IH]%orb_true_iff.
    + rewrite <- fmap_cons. rewrite (starts_with_c_string p (c :: s)); [done|].
      simpl. by rewrite bool_decide_false.
    + rewrite Hr. apply orb_true_r.
Qed.

(** [content LIKE '%' + query + '%'] for a query without wild cards:
    the query occurs in the content, up to the case of ASCII
    letters. *)
Lemma like_contains (content query : string) :
  Sql.literal query = true →
  Sql.like content ("%" +:+ query +:+ "%") = true →
  Text.contains_nocase content query = true.
Proof.
  intros Hq%literal_plain_chars. unfold Sql.like, Text.contains_nocase.
  rewrite !chars_app. simpl.
  rewrite c_string_plain by done. simpl.
  intros H%pattern_compare_infix; [|done].
  by apply occurs_in_c_string.
Qed.
End Literal.

(** ** search *)

Lemma limit_elem_of {A} (n : Z) (l : list A) (x : A) :
  x ∈ Sql.limit n l → x ∈ l.
Proof.
  unfold Sql.limit. destruct (n <? 0); [done|].
  intros (i & Hi)%list_elem_of_lookup. apply lookup_take_Some in Hi as [Hi _].
  by eapply list_elem_of_lookup_2.
Qed.

Lemma search_inv self w query limit rows w' :
  search self query limit w = (Ok rows, w') →
  ∃ db, files w !! db_path self = Some (DatabaseFile db)
        ∧ rows = Query.search_documents ("%" +:+ query +:+ "%") limit db.
Proof.
  intros Hrun. pose proof Hrun as (rows0 & w1 & Hex & _)%bind_inv.
  apply execute_inv in Hex as (db & Hdb & _). exists db. split; [done|].
  rewrite (search_eq _ _ _ Hdb) in Hrun. simpl in Hrun.
  destruct (Sql.fits_int64 limit); [|done]. by injection Hrun as <- _.
Qed.

(** C2: for every query string and every non-negative limit,
    [search(query, limit)] returns at most [limit] records; and on a
    database it does return when the limit fits a 64-bit integer. *)
Theorem search_at_most_limit self w query limit :
  0 ≤ limit →
  (∀ rows w', search self query limit w = (Ok rows, w') →
              Z.of_nat (length rows) ≤ limit)
  ∧ (∀ db, files w !! db_path self = Some (DatabaseFile db) →
           limit < 2 ^ 63 →
           ∃ rows w', search self query limit w = (Ok rows, w')).
Proof.
  intros Hlimit. split.
  - intros rows w' (db & _ & ->)%search_inv.
    unfold Query.search_documents. rewrite length_fmap.
    by apply limit_length.
  - intros db Hdb Hfit. rewrite (search_eq _ _ _ Hdb). simpl.
    unfold Sql.fits_int64.
    destruct (Z.leb_spec (- 2 ^ 63) limit); [|lia].
    destruct (Z.ltb_spec limit (2 ^ 63)); [|lia]. simpl. eauto.
Qed.

Lemma search_at_most_limit_witness :
  ∃ rows w',
    search Sample.reader "a" 1 Sample.world = (Ok rows, w')
    ∧ Z.of_nat (length rows) ≤ 1.
Proof.
  destruct (search_at_most_limit Sample.reader Sample.world "a" 1
              ltac:(lia)) as [Hmost Hruns].
  destruct (Hruns Sample.db sample_database_file ltac:(lia))
    as (rows & w' & Hrun).
  exists rows, w'. split; [done|]. by eapply Hmost.
Defined.

(** C1, as the code has it: for every query string and limit, every
    record returned by [search(query, limit)] has a [content] field, the
    content of a document, that matches the pattern [%query%] under
    SQLite's LIKE, where [%] and [_] in the query are wild cards and
    ASCII letters match in either case; when the query has no wild card
    (and no NUL), the content contains the query up to the case of ASCII
    letters.  The call returns when the limit fits a 64-bit integer. *)
Theorem search_like self w query limit :
  (∀ rows w', search self query limit w = (Ok rows, w') →
     ∀ r, r ∈ rows →
       ∃ db d,
         files w !! db_path self = Some (DatabaseFile db)
         ∧ d ∈ documents db
         ∧ dict_get "content" r = Some (VStr (doc_content d))
         ∧ Sql.like (doc_content d) ("%" +:+ query +:+ "%") = true
         ∧ (Sql.literal query = true →
            Text.contains_nocase (doc_content d) query = true))
  ∧ (∀ db, files w !! db_path self = Some (DatabaseFile db) →
           Sql.fits_int64 limit = true →
           ∃ rows w', search self query limit w = (Ok rows, w')).
Proof.
  split.
  - intros rows w' (db & Hdb & ->)%search_inv r.
    unfold Query.search_documents.
    intros ([d s] & -> & Hin%limit_elem_of)%list_elem_of_fmap.
    apply list_elem_of_filter in Hin as [Hlike%Is_true_true Hjoin].
    simpl in Hlike. exists db, d. repeat split; try done.
    + unfold Query.join_sources in Hjoin.
      apply list_elem_of_bind in Hjoin as (d' & Hds & Hd').
      apply list_elem_of_bind in Hds as (s' & Hds & _).
      by apply list_elem_of_singleton in Hds as [= -> _].
    + intros Hq. by apply like_contains.
  - intros db Hdb Hfit. rewrite (search_eq _ _ _ Hdb). simpl.
    rewrite Hfit. eauto.
Qed.

Lemma search_like_witness :
  ∃ d, d ∈ documents Sample.db
       ∧ Sql.like (doc_content d) "%REACT%" = true
       ∧ Text.contains_nocase (doc_content d) "REACT" = true.
Proof.
  destruct (search_like Sample.reader Sample.world "REACT" 10) as [Hall _].
  destruct (Hall _ _ eq_refl
              (Query.search_row (Sample.hooks, Sample.react_site)))
    as (db & d & Hdb & Hd & _ & Hlike & Hcontains).
  { apply list_elem_of_here. }
  injection Hdb as <-. exists d. split; [done|]. split; [done|].
  by apply Hcontains.
Defined.

(** C1 as stated fails: LIKE does not tell the case of ASCII letters
    apart, so a search for [REACT] returns a document whose content has
    [React] and nowhere [REACT]. *)
Lemma search_like_counterexample :
  ¬ (∀ query limit rows w',
       search Sample.reader query limit Sample.world = (Ok rows, w') →
       ∀ r, r ∈ rows →
         ∃ content, dict_get "content" r = Some (VStr content)
                    ∧ Text.contains content query = true).
Proof.
  intros Hclaim.
  destruct (Hclaim "REACT" 10 _ _ eq_refl
              (Query.search_row (Sample.hooks, Sample.react_site)))
    as (content & [= <-] & Hin).
  - apply list_elem_of_here.
  - discriminate Hin.
Qed.

(** ** get_embeddings *)


(** The record [get_embeddings] makes of a document and its source: the
    blob decoded, unless it is empty. *)
Lemma decode_row ds b w :
  doc_embedding ds.1 = Some b →
  Z.of_nat (length b) `mod` 4 = 0 →
  decode (Query.embedding_row ds) w = (Ok (embedding_record ds b), w).
Proof.
  intros Hb Hlen. unfold decode. rewrite dict_of_embedding_row.
  unfold Query.embedding_row, embedding_record, decoded. rewrite Hb. simpl.
  unfold mbind, M_bind, item. simpl.
  case_bool_decide; simpl; [done|].
  by rewrite bool_decide_true.
Qed.

(** A blob whose length is not a multiple of four stops the loop. *)
Lemma decode_row_raises ds b w :
  doc_embedding ds.1 = Some b →
  Z.of_nat (length b) `mod` 4 ≠ 0 →
  decode (Query.embedding_row ds) w = (Raise ValueError, w).
Proof.
  intros Hb Hlen. unfold decode. rewrite dict_of_embedding_row.
  unfold Query.embedding_row. rewrite Hb. simpl.
  unfold mbind, M_bind, item. simpl.
  case_bool_decide as Hnil; simpl; [by subst b|].
  by rewrite bool_decide_false.
Qed.



Lemma join_sources_elem {A} (key : A → value) table db t s :
  (t, s) ∈ Query.join_sources key table db
  ↔ t ∈ table ∧ s ∈ sources db ∧ Sql.eq (key t) (src_id s) = true.
Proof.
  unfold Query.join_sources. rewrite list_elem_of_bind. split.
  - intros (t' & (s' & Hts & Hs')%list_elem_of_bind & Ht').
    apply list_elem_of_singleton in Hts as [= -> ->].
    apply list_elem_of_filter in Hs' as [Heq%Is_true_true Hs']. done.
  - intros (Ht & Hs & Heq). exists t. split; [|done].
    apply list_elem_of_bind. exists s. split; [apply list_elem_of_here|].
    apply list_elem_of_filter. by rewrite Is_true_true.
Qed.

Lemma join_sources_one_each {A} (key : A → value) table db :
  (∀ t, t ∈ table →
        ∃ s, filter (λ s, Is_true (Sql.eq (key t) (src_id s))) (sources db)
             = [s]) →
  (Query.join_sources key table db).*1 = table.
Proof.
  unfold Query.join_sources. induction table as [|t table IH]; [done|].
  intros Hone. rewrite bind_cons, fmap_app, IH.
  - destruct (Hone t) as (s & ->); [apply list_elem_of_here|]. done.
  - intros t' Ht'. apply Hone. by apply list_elem_of_further.
Qed.







(** ** The reader only reads *)

Section Frame.

Lemma keeps_ret {A} (a : A) : keeps_files (mret a : M A).
Proof. done. Qed.

Lemma keeps_raise {A} (e : exn) : keeps_files (raise e : M A).
Proof. done. Qed.

Lemma keeps_emit (e : event) : keeps_files (emit e).
Proof. done. Qed.

Lemma keeps_bind {A B} (m : M A) (k : A → M B) :
  keeps_files m → (∀ a, keeps_files (k a)) → keeps_files (m ≫= k).
Proof.
  intros Hm Hk w. unfold mbind, M_bind. specialize (Hm w).
  destruct (m w) as [[a|e] w1]; simpl in *; [|done].
  by rewrite Hk.
Qed.

Lemma keeps_for_each {A S} (xs : list A) (body : S → A → M S) (s : S) :
  (∀ s x, keeps_files (body s x)) → keeps_files (for_each xs body s).
Proof.
  intros Hbody. revert s. induction xs as [|x xs IH]; intros s; simpl.
  - apply keeps_ret.
  - by apply keeps_bind.
Qed.

Lemma keeps_engine path sql : keeps_files (engine path sql).
Proof.
  intros w. unfold engine.
  destruct (files w !! path) as [[db|c]|]; [|by case_bool_decide|done].
  by destruct (Query.run sql db).
Qed.

Lemma keeps_execute self sql : keeps_files (execute self sql).
Proof.
  unfold execute. destruct (Query.bindable sql); [|apply keeps_raise].
  apply keeps_bind; [apply keeps_emit | intros _; apply keeps_engine].
Qed.

Lemma keeps_item {V} k (d : list (string * V)) : keeps_files (item k d).
Proof. unfold item. by destruct (dict_get k d). Qed.



Lemma keeps_get_stats self : keeps_files (get_stats self).
Proof.
  apply keeps_for_each. intros stats table.
  apply keeps_bind; [apply keeps_execute|]. intros rows.
  apply keeps_bind; [|intros n; apply keeps_ret].
  unfold fetchone_item. destruct rows; [apply keeps_raise | apply keeps_item].
Qed.

Lemma keeps_list_sources self : keeps_files (list_sources self).
Proof.
  apply keeps_bind; [apply keeps_execute | intros rows; apply keeps_ret].
Qed.

Lemma keeps_search self query limit : keeps_files (search self query limit).
Proof.
  apply keeps_bind; [apply keeps_execute | intros rows; apply keeps_ret].
Qed.


Lemma keeps_get_code_examples self language :
  keeps_files (get_code_examples self language).
Proof.
  apply keeps_bind; [|intros rows; apply keeps_ret].
  destruct (truthy language); apply keeps_execute.
Qed.






End Frame.




(** ** The entry point *)

Section Runs.
Context (path : string) (db : database).

Lemma runs_ret {A} (a : A) (Q : A → Prop) :
  Q a → runs path db (mret a) Q.
Proof. intros HQ w _. exists a, w, []. by rewrite app_nil_r. Qed.

Lemma runs_emit (e : event) : runs path db (emit e) (λ _, True).
Proof. intros w _. by exists (), (logged e w), [e]. Qed.

Lemma runs_bind {A B} (m : M A) (k : A → M B) Q R :
  runs path db m Q → (∀ a, Q a → runs path db (k a) R) →
  runs path db (m ≫= k) R.
Proof.
  intros Hm Hk w Hw. destruct (Hm w Hw) as (a & w1 & l1 & Hrun & Hf & Hl & HQ).
  destruct (Hk a HQ w1) as (b & w2 & l2 & Hrun' & Hf' & Hl' & HR).
  { by rewrite Hf. }
  exists b, w2, (l1 ++ l2). rewrite (bind_ok _ _ _ _ _ Hrun).
  repeat split; [done | congruence | | done].
  by rewrite Hl', Hl, app_assoc.
Qed.

Lemma runs_weaken {A} (m : M A) (Q R : A → Prop) :
  runs path db m Q → (∀ a, Q a → R a) → runs path db m R.
Proof.
  intros Hm HQR w Hw. destruct (Hm w Hw) as (a & w' & l & Hrun & Hf & Hl & HQ).
  exists a, w', l. auto.
Qed.

Lemma runs_item {V} k (d : list (string * V)) v :
  dict_get k d = Some v → runs path db (item k d) (λ x, x = v).
Proof. intros Hk. unfold item. rewrite Hk. by apply runs_ret. Qed.

Lemma runs_for_each {A S} (P : A → Prop) (I : S → Prop) xs
    (body : S → A → M S) s :
  Forall P xs →
  (∀ s x, I s → P x → runs path db (body s x) I) →
  I s → runs path db (for_each xs body s) I.
Proof.
  intros Hxs Hbody. revert s.
  induction Hxs as [|x xs Hx _ IH]; intros s Hs; simpl.
  - by apply runs_ret.
  - eapply runs_bind; [by apply Hbody | done].
Qed.

Lemma runs_eq {A} (m : M A) (a : A) (step : world → world) :
  (∀ w, files w !! path = Some (DatabaseFile db) →
        m w = (Ok a, step w)
        ∧ files (step w) = files w ∧ ∃ l, log (step w) = log w ++ l) →
  runs path db m (λ x, x = a).
Proof.
  intros Hm w Hw. destruct (Hm w Hw) as (Hrun & Hf & l & Hl).
  by exists a, (step w), l.
Qed.

Context (self : DevDiggerDB) (Hself : db_path self = path).

Lemma runs_list_sources :
  runs path db (list_sources self) (λ rows, rows = Query.select_sources db).
Proof.
  eapply runs_eq. intros w Hw. subst path.
  rewrite (list_sources_eq _ _ _ Hw). repeat split. by eexists.
Qed.

Lemma runs_search query limit :
  Sql.fits_int64 limit = true →
  runs path db (search self query limit)
    (λ rows,
       rows = Query.search_documents ("%" +:+ query +:+ "%") limit db).
Proof.
  intros Hfit. eapply runs_eq. intros w Hw. subst path.
  rewrite (search_eq _ _ _ Hw). simpl. rewrite Hfit.
  repeat split. by eexists.
Qed.

Lemma runs_get_code_examples :
  runs path db (get_code_examples self VNone)
    (λ rows, rows = Query.select_code_examples db).
Proof.
  eapply runs_eq. intros w Hw. subst path.
  rewrite (get_code_examples_eq _ _ _ Hw). simpl.
  repeat split. by eexists.
Qed.

End Runs.

Lemma connect_present path w f :
  files w !! path = Some f →
  connect path w = (Ok {| db_path := path |}, logged (Connected path) w).
Proof. intros Hf. unfold connect, logged. by rewrite Hf. Qed.

Lemma Forall_take_fmap {A B} (f : A → B) (n : nat) (l : list A) :
  Forall (λ y, ∃ x, y = f x) (take n (f <$> l)).
Proof.
  apply Forall_take, Forall_fmap, Forall_forall. intros x _. by exists x.
Qed.

(** What the example does once the statistics are there. *)
Lemma example_after_stats home db (k : M unit) :
  k = (let db0 := {| db_path := DB_PATH home |} in
       _ ← print (newline +:+ "📚 Sources:");
       srcs ← list_sources db0;
       _ ← for_each (take 5 srcs)
             (λ _ source,
                title ← item "title" source;
                shown ← (if truthy title then mret title
                         else item "url" source);
                print ("  - " +:+ Py.str shown)) ();
       _ ← print (newline +:+ "🔍 Searching for 'react':");
       results ← search db0 "react" 3;
       _ ← for_each results
             (λ i result,
                content ← item "content" result;
                _ ← match content with
                    | VStr s =>
                        print ("  " +:+ Py.int_str i +:+ ". " +:+ preview s
                               +:+ "...")
                    | _ => raise TypeError
                    end;
                mret (i + 1)) 1;
       _ ← print (newline +:+ "💻 Code Examples:");
       exs ← get_code_examples db0 VNone;
       _ ← for_each (take 3 exs)
             (λ _ example,
                language ← item "language" example;
                let description :=
                  default (VStr "No description")
                          (dict_get "description" example) in
                print ("  - " +:+ Py.str language +:+ ": "
                       +:+ Py.str description)) ();
       close db0) →
  runs (DB_PATH home) db k (λ _, True).
Proof.
  intros ->. cbv zeta.
  eapply runs_bind; [apply runs_emit | intros _ _].
  eapply runs_bind; [by apply runs_list_sources | intros srcs ->].
  eapply runs_bind.
  { apply (runs_for_each _ _ (λ y, ∃ s, y = Query.source_row s) (λ _, True));
      [apply Forall_take_fmap | | done].
    intros _ source _ [s ->].
    eapply runs_bind; [by apply runs_item | intros title ->].
    eapply runs_bind; [|intros shown _; apply runs_emit].
    instantiate (1 := λ _, True).
    destruct (truthy _); [by apply runs_ret|].
    eapply runs_weaken; [by apply runs_item | done]. }
  intros _ _.
  eapply runs_bind; [apply runs_emit | intros _ _].
  eapply runs_bind; [by apply runs_search | intros results ->].
  eapply runs_bind.
  { apply (runs_for_each _ _ (λ y, ∃ ds, y = Query.search_row ds) (λ _, True));
      [apply Forall_fmap, Forall_forall; intros ds _; by exists ds | | done].
    intros i result _ [ds ->].
    eapply runs_bind; [by apply runs_item | intros content ->].
    eapply runs_bind; [apply runs_emit | intros _ _; by apply runs_ret]. }
  intros _ _.
  eapply runs_bind; [apply runs_emit | intros _ _].
  eapply runs_bind; [by apply runs_get_code_examples | intros exs ->].
  eapply runs_bind; [|intros _ _; apply runs_emit].
  apply (runs_for_each _ _ (λ y, ∃ cs, y = Query.code_example_row cs)
           (λ _, True)); [apply Forall_take_fmap | | done].
  intros _ example _ [cs ->].
  eapply runs_bind; [by apply runs_item | intros language ->].
  apply runs_emit.
Qed.

Lemma example_basic_usage_database home w db :
  files w !! DB_PATH home = Some (DatabaseFile db) →
  ∃ w' rest,
    example_basic_usage home w = (Ok (), w')
    ∧ files w' = files w
    ∧ log w' = log w ++ [Printed banner;
                         Printed "DEVDIGGER DATABASE USAGE EXAMPLE";
                         Printed banner; Connected (DB_PATH home);
                         Executed (DB_PATH home) (CountRows "sources")]
                     ++ rest.
Proof.
  intros Hw. unfold example_basic_usage.
  do 3 (erewrite bind_ok by reflexivity).
  erewrite bind_ok by (by eapply connect_present).
  erewrite bind_ok by (by eapply get_stats_eq).
  do 3 (erewrite bind_ok by reflexivity).
  case_bool_decide.
  - eexists _, _. split; [reflexivity|]. split; [reflexivity|]. simpl.
    rewrite <- !app_assoc. simpl. reflexivity.
  - match goal with
    | |- ∃ w' rest, ?k ?w0 = _ ∧ _ =>
        destruct (example_after_stats home db k eq_refl w0)
          as ([] & w' & l & Hrun & Hf & Hl & _); [done|]
    end.
    exists w'. eexists. split; [done|]. split; [by rewrite Hf|].
    rewrite Hl. simpl. rewrite <- !app_assoc. simpl. reflexivity.
Qed.

Lemma get_stats_not_database self w content :
  files w !! db_path self = Some (TextFile content) →
  ∃ e, (e = OperationalError ∨ e = DatabaseError)
       ∧ get_stats self w
         = (Raise e, logged (Executed (db_path self) (CountRows "sources")) w).
Proof.
  intros Hw.
  exists (if bool_decide (content = "") then OperationalError
          else DatabaseError).
  split; [case_bool_decide; auto|].
  unfold get_stats, tables. simpl for_each.
  erewrite bind_raise; [reflexivity|].
  erewrite bind_raise; [reflexivity|].
  unfold execute. change (Query.bindable (CountRows "sources")) with true.
  cbv iota. erewrite bind_ok by reflexivity.
  unfold engine. simpl files. rewrite Hw.
  case_bool_decide; reflexivity.
Qed.

(** C7: when the database file is absent at start-up, the script prints
    its message and exits with status 1, and no statement has run; when
    the file is present, the guard does not fire: the script goes on to
    connect and to query the database, and on a DevDigger database it
    ends with status 0 and every file as it was. *)
Theorem main_guard home w :
  (files w !! DB_PATH home = None →
   run_script home w
   = (1, {| files := files w;
            log := log w ++ [Printed ("❌ Database not found at: "
                                      +:+ DB_PATH home);
                             Printed (newline +:+
                               "Please use DevDigger to crawl some data first!")]
         |}))
  ∧ (∀ f, files w !! DB_PATH home = Some f →
       ∃ code w' rest,
         run_script home w = (code, w')
         ∧ log w' = log w ++ [Printed banner;
                              Printed "DEVDIGGER DATABASE USAGE EXAMPLE";
                              Printed banner; Connected (DB_PATH home);
                              Executed (DB_PATH home) (CountRows "sources")]
                          ++ rest
         ∧ (∀ db, f = DatabaseFile db → code = 0 ∧ files w' = files w)).
Proof.
  split.
  - intros Hw. unfold run_script, main, path_exists, mbind, M_bind.
    rewrite Hw. simpl. by rewrite <- app_assoc.
  - intros f Hw. unfold run_script, main.
    erewrite bind_ok; [|unfold path_exists; by rewrite Hw].
    rewrite bool_decide_true by done. simpl negb. cbv iota.
    erewrite bind_ok by reflexivity.
    destruct f as [db|content].
    + destruct (example_basic_usage_database home w db Hw)
        as (w' & rest & -> & Hf & Hl).
      exists 0, w', rest. repeat split; done.
    + unfold example_basic_usage.
      do 3 (erewrite bind_ok by reflexivity).
      erewrite bind_ok by (by eapply connect_present).
      match goal with
      | |- context [(get_stats ?s ≫= _) ?w0] =>
          destruct (get_stats_not_database s w0 content)
            as (e & He & Hstats); [exact Hw|]
      end.
      erewrite bind_raise by exact Hstats.
      eexists 1, _, []. split; [by destruct He as [-> | ->]|].
      split; [|done]. simpl. rewrite <- !app_assoc. reflexivity.
Qed.

Lemma main_guard_witness :
  (∃ w', run_script Sample.home Sample.world = (0, w'))
  ∧ (∃ w', run_script Sample.home {| files := ∅; log := [] |} = (1, w')).
Proof.
  split.
  - destruct (main_guard Sample.home Sample.world) as [_ Hpresent].
    destruct (Hpresent _ eq_refl) as (code & w' & rest & Hrun & _ & Hdb).
    destruct (Hdb _ eq_refl) as [-> _]. by exists w'.
  - destruct (main_guard Sample.home {| files := ∅; log := [] |})
      as [Habsent _].
    eexists. apply Habsent. reflexivity.
Defined.

(** ** JSON: reading what was written *)

(** Induction on objects that reaches the members of lists and
    dictionaries. *)
Lemma pyobj_nested_ind (P : pyobj → Prop) :
  (∀ v, P (PVal v)) →
  (∀ items, Forall P items → P (PList items)) →
  (∀ items, Forall (λ kv, P kv.2) items → P (PDict items)) →
  ∀ o, P o.
Proof.
  intros on_value on_list on_dict. fix IH 1. intros [v|items|items].
  - apply on_value.
  - apply on_list. induction items as [|x items IHitems]; constructor.
    + apply IH.
    + apply IHitems.
  - apply on_dict. induction items as [|[k x] items IHitems]; constructor.
    + apply IH.
    + apply IHitems.
Qed.

Section JsonText.
Import Json Py.

(** *** White space *)

Lemma skip_space_indent level s :
  skip_space (newline_indent level ++ s) = skip_space s.
Proof.
  unfold newline_indent. generalize (2 * level)%nat. intros n. simpl.
  induction n as [|n IH]; [done|]. simpl. exact IH.
Qed.

(** *** Strings *)

Lemma read_string_escape c tail :
  read_string (escape c ++ tail)
  = '(str, r) ← read_string tail; Some (c :: str, r).
Proof.
  destruct c as [[] [] [] [] [] [] [] []]; reflexivity.
Qed.

Lemma read_string_chars s rest :
  read_string ((s ≫= escape) ++ dquote :: rest) = Some (s, rest).
Proof.
  induction s as [|c s IH]; [done|].
  rewrite bind_cons, <- app_assoc, read_string_escape, IH. done.
Qed.

Lemma read_encode_string s rest :
  ∃ tail, encode_string s ++ rest = dquote :: tail
          ∧ read_string tail = Some (Text.chars s, rest).
Proof.
  unfold encode_string.
  exists ((Text.chars s ≫= escape) ++ dquote :: rest). split.
  - by rewrite <- app_comm_cons, <- app_assoc.
  - apply read_string_chars.
Qed.
(** *** Integers *)

Lemma digits_app ds rest :
  Forall (λ c, is_digit c = true) ds → ends_number rest →
  digits (ds ++ rest) = (ds, rest).
Proof.
  intros Hds Hrest. induction Hds as [|c ds Hc _ IH].
  - destruct rest as [|c rest]; [done|]. change (is_digit c = false) in Hrest.
    cbn [app digits]. by rewrite Hrest.
  - rewrite <- app_comm_cons. cbn [digits]. by rewrite Hc, IH.
Qed.

Lemma uint_chars_digits d :
  Forall (λ c, is_digit c = true) (Text.chars (NilEmpty.string_of_uint d)).
Proof. induction d; simpl; by constructor. Qed.

Lemma uint_chars_nonempty d :
  d ≠ Decimal.Nil → Text.chars (NilEmpty.string_of_uint d) ≠ [].
Proof. by destruct d. Qed.

Lemma read_int_digits (sign ds rest : list ascii) d :
  sign = [] ∨ sign = ["-"%char] →
  ds ≠ [] → Forall (λ c, is_digit c = true) ds → delimited rest →
  NilZero.int_of_string (string_of_list_ascii (sign ++ ds)) = Some d →
  read_int (sign ++ ds ++ rest) = Some (Z.of_int d, rest).
Proof.
  intros Hsign Hne Hds Hrest Hd. unfold read_int.
  assert (Hend : ends_number rest).
  { destruct rest; [done|]. by destruct Hrest. }
  assert (Hscan : (let (ds', r) := digits (ds ++ rest) in
                   match ds', r with
                   | [], _ => None
                   | _, c :: _ =>
                       if bool_decide (c = "."%char)
                          || bool_decide (c = "e"%char)
                          || bool_decide (c = "E"%char) then None
                       else
                         d ← NilZero.int_of_string
                               (string_of_list_ascii (sign ++ ds'));
                         Some (Z.of_int d, r)
                   | _, [] =>
                       d ← NilZero.int_of_string
                             (string_of_list_ascii (sign ++ ds'));
                       Some (Z.of_int d, r)
                   end) = Some (Z.of_int d, rest)).
  { rewrite digits_app by done. destruct ds as [|c0 ds]; [done|].
    destruct rest as [|c rest]; [by rewrite Hd|].
    destruct Hrest as (_ & H1 & H2 & H3).
    rewrite !bool_decide_false by done. simpl. by rewrite Hd. }
  destruct Hsign as [-> | ->].
  - destruct ds as [|c0 ds]; [done|]. rewrite app_nil_l, <- app_comm_cons.
    assert (c0 ≠ "-"%char) as Hc0.
    { apply Forall_cons in Hds as [Hc0 _]. by intros ->. }
    cbv beta iota. rewrite bool_decide_false by done. exact Hscan.
  - change (["-"%char] ++ ds ++ rest) with ("-"%char :: ds ++ rest).
    cbv beta iota. rewrite bool_decide_true by done. exact Hscan.
Qed.

Lemma read_int_str z rest :
  delimited rest → read_int (Text.chars (int_str z) ++ rest) = Some (z, rest).
Proof.
  intros Hrest. unfold int_str.
  assert (Hparse : NilZero.int_of_string
                     (NilZero.string_of_int (Z.to_int z))
                   = Some (Z.to_int z)).
  { apply NilZero.isi; destruct z; try done; simpl; intros [= H];
      by apply Unsigned.to_uint_nonnil in H. }
  rewrite <- (DecimalZ.of_to z) at 2.
  destruct z as [|p|p]; simpl Z.to_int in *; simpl NilZero.string_of_int in *.
  - apply (read_int_digits [] ["0"%char]); auto; by repeat constructor.
  - pose proof (Unsigned.to_uint_nonnil p) as Hp.
    assert (Hs : NilZero.string_of_uint (Pos.to_uint p)
                 = NilEmpty.string_of_uint (Pos.to_uint p)).
    { by destruct (Pos.to_uint p). }
    rewrite Hs in *.
    apply (read_int_digits []);
      auto using uint_chars_digits, uint_chars_nonempty.
    rewrite app_nil_l. by rewrite string_of_list_ascii_of_string.
  - pose proof (Unsigned.to_uint_nonnil p) as Hp.
    assert (Hs : NilZero.string_of_uint (Pos.to_uint p)
                 = NilEmpty.string_of_uint (Pos.to_uint p)).
    { by destruct (Pos.to_uint p). }
    rewrite Hs in *.
    apply (read_int_digits ["-"%char]);
      auto using uint_chars_digits, uint_chars_nonempty.
    change (["-"%char] ++ ?l) with ("-"%char :: l). cbn [string_of_list_ascii].
    by rewrite string_of_list_ascii_of_string.
Qed.

(** *** Values *)

Lemma skip_space_twice s : skip_space (skip_space s) = skip_space s.
Proof.
  induction s as [|c s IH]; [done|]. simpl.
  destruct (is_space c) eqn:Hc; [done|]. simpl. by rewrite Hc.
Qed.

Lemma read_value_skip fuel s :
  read_value fuel s = read_value fuel (skip_space s).
Proof.
  destruct fuel; [done|]. cbn [read_value]. by rewrite skip_space_twice.
Qed.

Lemma read_value_indent fuel level t :
  read_value fuel (newline_indent level ++ t) = read_value fuel t.
Proof.
  rewrite read_value_skip, skip_space_indent. symmetry. apply read_value_skip.
Qed.

Lemma read_value_space fuel t :
  read_value fuel (" "%char :: t) = read_value fuel t.
Proof. by destruct fuel. Qed.

Lemma read_value_string fuel tail :
  read_value (S fuel) (dquote :: tail)
  = '(str, r1) ← read_string tail; Some (JStr (string_of_list_ascii str), r1).
Proof. reflexivity. Qed.

Lemma read_value_number fuel c r :
  is_digit c = true ∨ c = "-"%char →
  read_value (S fuel) (c :: r)
  = '(z, r1) ← read_int (c :: r); Some (JInt z, r1).
Proof.
  destruct c as [[] [] [] [] [] [] [] []]; intros [H | H];
    try discriminate H; reflexivity.
Qed.

Lemma int_str_head z :
  ∃ c t, Text.chars (int_str z) = c :: t
         ∧ (is_digit c = true ∨ c = "-"%char).
Proof.
  unfold int_str. destruct z as [|p|p]; simpl.
  - eexists _, _. split; [reflexivity | by left].
  - pose proof (Unsigned.to_uint_nonnil p) as Hp.
    pose proof (uint_chars_digits (Pos.to_uint p)) as Hd.
    destruct (Pos.to_uint p); [done| ..]; simpl in *;
      eexists _, _; (split; [reflexivity | by left]).
  - eexists _, _. split; [reflexivity | by right].
Qed.

Lemma read_encode_value fuel v rest :
  delimited rest →
  read_value (S fuel) (encode_value v ++ rest) = Some (loaded (PVal v), rest).
Proof.
  intros Hrest. destruct v as [|z|s|b]; unfold encode_value.
  - reflexivity.
  - destruct (int_str_head z) as (c & t & Hz & Hc).
    pose proof (read_int_str z rest Hrest) as Hread. rewrite Hz in *.
    rewrite <- app_comm_cons in *.
    by rewrite (read_value_number _ _ _ Hc), Hread.
  - destruct (read_encode_string s rest) as (tail & -> & Hread).
    rewrite read_value_string, Hread. simpl.
    by rewrite string_of_list_ascii_of_string.
  - destruct (read_encode_string (str (VBytes b)) rest) as (tail & -> & Hread).
    rewrite read_value_string, Hread. simpl.
    by rewrite string_of_list_ascii_of_string.
Qed.

Lemma encode_head level o :
  ∃ c t, encode level o = c :: t ∧ opens_value c.
Proof.
  destruct o as [[|z|s|b]|items|items]; simpl.
  - by eexists _, _.
  - destruct (int_str_head z) as (c & t & Hz & Hc). exists c, t.
    split; [done|]. destruct Hc as [Hc | ->]; [|done].
    revert Hc. by destruct c as [[] [] [] [] [] [] [] []].
  - by eexists _, _.
  - by eexists _, _.
  - unfold block. destruct (map _ items); by eexists _, _.
  - unfold block. destruct (map _ items); by eexists _, _.
Qed.

(** *** Arrays and objects *)

Lemma skip_space_bracket c rest :
  is_space c = false → skip_space (c :: rest) = c :: rest.
Proof. intros Hc. unfold skip_space. by rewrite Hc. Qed.

Lemma bind_some {A B} (a : A) (f : A → option B) : Some a ≫= f = f a.
Proof. reflexivity. Qed.

Lemma join_map_cons {A} sep (f : A → list ascii) x y l :
  join sep (map f (x :: y :: l)) = f x ++ sep ++ join sep (map f (y :: l)).
Proof. reflexivity. Qed.

Lemma join_cons sep p q parts :
  join sep (p :: q :: parts) = p ++ sep ++ join sep (q :: parts).
Proof. reflexivity. Qed.

Lemma read_items_step fuel s :
  read_items (S fuel) s
  = '(v, r) ← read_value fuel s;
    match skip_space r with
    | c :: r1 =>
        if bool_decide (c = ","%char) then
          '(vs, r2) ← read_items fuel r1; Some (v :: vs, r2)
        else if bool_decide (c = "]"%char) then Some ([v], r1)
        else None
    | [] => None
    end.
Proof. reflexivity. Qed.

Lemma read_items_join level items :
  Forall (λ x, ∀ fuel rest,
            (weight x ≤ fuel)%nat → delimited rest →
            read_value fuel (encode (S level) x ++ rest)
            = Some (loaded x, rest)) items →
  items ≠ [] →
  ∀ fuel rest,
    (foldr (λ x n, S (weight x + n)) 0 items ≤ fuel)%nat →
    read_items fuel
      (newline_indent (S level)
       ++ join (","%char :: newline_indent (S level))
               (map (encode (S level)) items)
       ++ newline_indent level ++ "]"%char :: rest)
    = Some (map loaded items, rest).
Proof.
  induction 1 as [|x items Hx _ IH]; [done|]. intros _ fuel rest Hfuel.
  destruct fuel as [|fuel]; [simpl in Hfuel; lia|].
  rewrite read_items_step, read_value_indent.
  destruct items as [|y items].
  - simpl map. simpl join. rewrite Hx; [|simpl in Hfuel; lia|done].
    rewrite bind_some. cbv beta iota.
    rewrite skip_space_indent, skip_space_bracket by done.
    reflexivity.
  - rewrite !map_cons, join_cons, <- !app_assoc.
    rewrite Hx; [|simpl in Hfuel; lia|done].
    rewrite bind_some. cbv beta iota.
    rewrite <- app_comm_cons, skip_space_bracket by done.
    rewrite bool_decide_true by done.
    rewrite <- !map_cons, (IH ltac:(done) fuel rest); [done|].
    simpl in *. lia.
Qed.

Lemma read_members_step fuel s :
  read_members (S fuel) s
  = match skip_space s with
    | q :: r =>
        if bool_decide (q = dquote) then
          '(k, r1) ← read_string r;
          match skip_space r1 with
          | c :: r2 =>
              if bool_decide (c = ":"%char) then
                '(v, r3) ← read_value fuel r2;
                match skip_space r3 with
                | c' :: r4 =>
                    if bool_decide (c' = ","%char) then
                      '(ms, r5) ← read_members fuel r4;
                      Some ((string_of_list_ascii k, v) :: ms, r5)
                    else if bool_decide (c' = "}"%char) then
                      Some ([(string_of_list_ascii k, v)], r4)
                    else None
                | [] => None
                end
              else None
          | [] => None
          end
        else None
    | [] => None
    end.
Proof. reflexivity. Qed.

Lemma read_members_join level (items : list (string * pyobj)) :
  Forall (λ kv, ∀ fuel rest,
            (weight kv.2 ≤ fuel)%nat → delimited rest →
            read_value fuel (encode (S level) kv.2 ++ rest)
            = Some (loaded kv.2, rest)) items →
  items ≠ [] →
  ∀ fuel rest,
    (foldr (λ kv n, S (weight kv.2 + n)) 0 items ≤ fuel)%nat →
    read_members fuel
      (newline_indent (S level)
       ++ join (","%char :: newline_indent (S level))
               (map (λ kv, encode_string kv.1 ++ Text.chars ": "
                           ++ encode (S level) kv.2) items)
       ++ newline_indent level ++ "}"%char :: rest)
    = Some (map (λ kv, (kv.1, loaded kv.2)) items, rest).
Proof.
  induction 1 as [|[k x] items Hx _ IH]; [done|]. intros _ fuel rest Hfuel.
  destruct fuel as [|fuel]; [simpl in Hfuel; lia|].
  rewrite read_members_step, skip_space_indent.
  assert (Hmember : ∀ tail,
            skip_space ((encode_string k ++ Text.chars ": "
                         ++ encode (S level) x) ++ tail)
            = dquote :: ((Text.chars k ≫= escape) ++ dquote
                         :: ":"%char :: " "%char :: encode (S level) x ++ tail)).
  { intros tail. unfold encode_string. rewrite <- !app_assoc.
    rewrite <- app_comm_cons, skip_space_bracket by done.
    by rewrite <- app_assoc. }
  simpl in Hfuel, Hx.
  destruct items as [|y items].
  - cbn [map join fst snd]. rewrite Hmember.
    rewrite bool_decide_true by done.
    rewrite read_string_chars, bind_some. cbv beta iota.
    rewrite skip_space_bracket, bool_decide_true by done.
    rewrite read_value_space, Hx by (done || lia).
    rewrite bind_some. cbv beta iota.
    rewrite skip_space_indent, skip_space_bracket by done.
    rewrite bool_decide_false, bool_decide_true by done.
    by rewrite string_of_list_ascii_of_string.
  - rewrite join_map_cons. cbn [fst snd].
    rewrite <- (app_assoc (encode_string k ++ Text.chars ": "
                           ++ encode (S level) x)), Hmember.
    rewrite bool_decide_true by done.
    rewrite read_string_chars, bind_some. cbv beta iota.
    rewrite skip_space_bracket, bool_decide_true by done.
    rewrite read_value_space, <- !app_assoc, Hx by (done || lia).
    rewrite bind_some. cbv beta iota.
    rewrite <- app_comm_cons, skip_space_bracket by done.
    rewrite bool_decide_true by done.
    rewrite (IH ltac:(done) fuel rest) by lia.
    rewrite bind_some. cbv beta iota.
    by rewrite string_of_list_ascii_of_string.
Qed.

Lemma read_value_bracket fuel r :
  read_value (S fuel) ("["%char :: r)
  = match skip_space r with
    | c :: r1 =>
        if bool_decide (c = "]"%char) then Some (JList [], r1)
        else '(vs, r2) ← read_items fuel r; Some (JList vs, r2)
    | [] => None
    end.
Proof. reflexivity. Qed.

Lemma read_value_brace fuel r :
  read_value (S fuel) ("{"%char :: r)
  = match skip_space r with
    | c :: r1 =>
        if bool_decide (c = "}"%char) then Some (JDict [], r1)
        else '(ms, r2) ← read_members fuel r; Some (JDict (dict_of ms), r2)
    | [] => None
    end.
Proof. reflexivity. Qed.

Lemma encode_list level items :
  encode level (PList items)
  = block "["%char "]"%char level (map (encode (S level)) items).
Proof. reflexivity. Qed.

Lemma encode_dict level items :
  encode level (PDict items)
  = block "{"%char "}"%char level
      (map (λ kv, encode_string kv.1 ++ Text.chars ": "
                  ++ encode (S level) kv.2) items).
Proof. reflexivity. Qed.

Lemma block_map_cons {A} open close level (f : A → list ascii) x l :
  block open close level (map f (x :: l))
  = open :: newline_indent (S level)
      ++ join (","%char :: newline_indent (S level)) (map f (x :: l))
      ++ newline_indent level ++ [close].
Proof. reflexivity. Qed.

Lemma join_head sep p parts c t :
  p = c :: t → ∃ t', join sep (p :: parts) = c :: t'.
Proof. intros ->. destruct parts; simpl; eauto. Qed.

(** *** Dictionaries without a repeated key *)

Lemma dict_set_fresh {V} k (v : V) d :
  k ∉ keys d → dict_set k v d = d ++ [(k, v)].
Proof.
  unfold keys. induction d as [|[k' v'] d IH]; [done|]. simpl.
  intros [Hk Hd]%not_elem_of_cons. rewrite bool_decide_false by done.
  by rewrite IH.
Qed.

Lemma dict_of_app {V} (acc d : list (string * V)) :
  NoDup (keys (acc ++ d)) →
  foldl (λ d kv, dict_set kv.1 kv.2 d) acc d = acc ++ d.
Proof.
  revert acc. induction d as [|[k v] d IH]; intros acc Hnd; simpl.
  - by rewrite app_nil_r.
  - rewrite dict_set_fresh.
    + rewrite IH; rewrite <- app_assoc; done.
    + unfold keys in *. rewrite fmap_app, fmap_cons in Hnd.
      apply NoDup_app in Hnd as (_ & Hnd & _). intros Hk.
      apply (Hnd k Hk). apply list_elem_of_here.
Qed.

Lemma dict_of_nodup {V} (d : list (string * V)) :
  NoDup (keys d) → dict_of d = d.
Proof. intros Hnd. by apply (dict_of_app []). Qed.

Lemma keys_loaded (items : list (string * pyobj)) :
  keys (map (λ kv, (kv.1, loaded kv.2)) items) = keys items.
Proof.
  unfold keys. induction items as [|[k v] items IH]; [done|].
  rewrite map_cons, !fmap_cons. cbn [fst snd]. by rewrite IH.
Qed.

(** *** The text of an object reads as the object *)

Lemma read_encode o :
  well_formed o →
  ∀ level fuel rest,
    (weight o ≤ fuel)%nat → delimited rest →
    read_value fuel (encode level o ++ rest) = Some (loaded o, rest).
Proof.
  induction o as [v|items IH|items IH] using pyobj_nested_ind;
    intros Hwf level fuel rest Hfuel Hrest;
    (destruct fuel as [|fuel]; [simpl in Hfuel; lia|]).
  - by apply read_encode_value.
  - rewrite encode_list. destruct items as [|x items]; [reflexivity|].
    assert (Hitems : Forall (λ x, ∀ fuel rest,
                        (weight x ≤ fuel)%nat → delimited rest →
                        read_value fuel (encode (S level) x ++ rest)
                        = Some (loaded x, rest)) (x :: items)).
    { clear Hfuel. revert IH Hwf. generalize (x :: items). intros l0 IH.
      induction IH as [|y l1 Hy _ IHl]; [constructor|].
      intros [Hwy Hwl]. constructor; [intros; by apply Hy | by apply IHl]. }
    rewrite block_map_cons.
    rewrite <- app_comm_cons, <- !app_assoc, <- app_comm_cons, app_nil_l.
    rewrite read_value_bracket, skip_space_indent.
    destruct (encode_head (S level) x) as (c & t & Hx & Hc & Hc1 & _).
    destruct (join_head (","%char :: newline_indent (S level)) _
                (map (encode (S level)) items) c t Hx) as (t' & Hjoin).
    rewrite map_cons at 1. rewrite Hjoin at 1.
    rewrite <- app_comm_cons, skip_space_bracket by done.
    rewrite bool_decide_false by done.
    rewrite (read_items_join level _ Hitems); [done | done |].
    simpl in Hfuel. simpl. lia.
  - rewrite encode_dict. destruct items as [|[k x] items]; [reflexivity|].
    destruct Hwf as [Hnodup Hwf].
    assert (Hitems : Forall (λ kv : string * pyobj, ∀ fuel rest,
                        (weight kv.2 ≤ fuel)%nat → delimited rest →
                        read_value fuel (encode (S level) kv.2 ++ rest)
                        = Some (loaded kv.2, rest)) ((k, x) :: items)).
    { clear Hfuel Hnodup. revert IH Hwf. generalize ((k, x) :: items).
      intros l0 IH. induction IH as [|y l1 Hy _ IHl]; [constructor|].
      intros [Hwy Hwl]. constructor; [intros; by apply Hy | by apply IHl]. }
    rewrite block_map_cons.
    rewrite <- app_comm_cons, <- !app_assoc, <- app_comm_cons, app_nil_l.
    rewrite read_value_brace, skip_space_indent.
    destruct (join_head (","%char :: newline_indent (S level))
                (encode_string k ++ Text.chars ": " ++ encode (S level) x)
                (map (λ kv, encode_string kv.1 ++ Text.chars ": "
                            ++ encode (S level) kv.2) items)
                dquote _ eq_refl) as (t' & Hjoin).
    rewrite map_cons at 1. cbn [fst snd]. rewrite Hjoin at 1.
    rewrite <- app_comm_cons, skip_space_bracket by done.
    rewrite bool_decide_false by done.
    rewrite (read_members_join level _ Hitems); [|done|].
    + rewrite bind_some. cbv beta iota. rewrite dict_of_nodup; [done|].
      by rewrite keys_loaded.
    + simpl in Hfuel. simpl. lia.
Qed.

(** *** The length of the text is enough fuel *)

Lemma join_length_bound {A} (f : A → list ascii) (w : A → nat) sep items :
  sep ≠ [] →
  Forall (λ x, (w x ≤ length (f x))%nat) items →
  items ≠ [] →
  (foldr (λ x n, S (w x + n)) 0 items
   ≤ S (length (join sep (map f items))))%nat.
Proof.
  intros Hsep Hall _. induction Hall as [|x items Hx _ IH]; [simpl; lia|].
  destruct items as [|y items].
  - simpl. lia.
  - rewrite join_map_cons, !length_app. cbn [foldr] in *.
    destruct sep; [done|]. simpl length at 2. lia.
Qed.

Lemma newline_indent_length level :
  length (newline_indent level) = S (2 * level).
Proof. unfold newline_indent. simpl length. by rewrite length_replicate. Qed.

Lemma weight_le_length o : ∀ level, (weight o ≤ length (encode level o))%nat.
Proof.
  induction o as [v|items IH|items IH] using pyobj_nested_ind; intros level.
  - destruct (encode_head level (PVal v)) as (c & t & -> & _). simpl. lia.
  - rewrite encode_list. destruct items as [|x items]; [simpl; lia|].
    rewrite block_map_cons. cbn [weight length]. rewrite !length_app.
    pose proof (join_length_bound (encode (S level)) weight
                  (","%char :: newline_indent (S level)) (x :: items)
                  ltac:(done)) as Hjoin.
    assert (Hall : Forall (λ y, (weight y ≤ length (encode (S level) y))%nat)
                     (x :: items)).
    { eapply Forall_impl; [exact IH|]. intros y Hy. apply Hy. }
    specialize (Hjoin Hall ltac:(done)).
    rewrite !newline_indent_length. cbn [length]. lia.
  - rewrite encode_dict. destruct items as [|[k x] items]; [simpl; lia|].
    rewrite block_map_cons. cbn [weight length]. rewrite !length_app.
    pose proof (join_length_bound
                  (λ kv : string * pyobj,
                     encode_string kv.1 ++ Text.chars ": "
                     ++ encode (S level) kv.2)
                  (λ kv, weight kv.2)
                  (","%char :: newline_indent (S level)) ((k, x) :: items)
                  ltac:(done)) as Hjoin.
    assert (Hall : Forall (λ kv : string * pyobj,
                             (weight kv.2
                              ≤ length (encode_string kv.1 ++ Text.chars ": "
                                        ++ encode (S level) kv.2))%nat)
                     ((k, x) :: items)).
    { eapply Forall_impl; [exact IH|]. intros [k' y] Hy. cbn [fst snd] in *.
      rewrite !length_app. specialize (Hy (S level)). lia. }
    specialize (Hjoin Hall ltac:(done)).
    rewrite !newline_indent_length. cbn [length]. lia.
Qed.

(** Reading the text of an object gives the object back. *)
Lemma loads_dumps o : well_formed o → loads (dumps o) = Some (loaded o).
Proof.
  intros Hwf. unfold loads, dumps, Text.chars.
  rewrite list_ascii_of_string_of_list_ascii.
  rewrite <- (app_nil_r (encode 0 o)) at 2.
  rewrite (read_encode o Hwf 0 _ []); [done | | done].
  pose proof (weight_le_length o 0). lia.
Qed.

End JsonText.

(** ** export_to_json *)

Lemma well_formed_records rows :
  Forall (λ r : row, NoDup (keys r)) rows → Json.well_formed (records rows).
Proof.
  unfold records. induction 1 as [|r rows Hr _ IH]; [done|].
  rewrite fmap_cons. split; [|exact IH]. split.
  - unfold keys in *. rewrite <- list_fmap_compose.
    erewrite list_fmap_ext; [exact Hr|]. by intros ? [k v].
  - clear. induction r as [|[k v] r IH]; [done|]. by split.
Qed.

Lemma loaded_records rows :
  ∃ js, Json.loaded (records rows) = JList js ∧ length js = length rows.
Proof.
  unfold records. eexists. split; [reflexivity|].
  by rewrite length_map, length_fmap.
Qed.

Lemma rows_nodup {A} (f : A → row) (l : list A) :
  (∀ x, NoDup (keys (f x))) → Forall (λ r : row, NoDup (keys r)) (f <$> l).
Proof. intros Hf. apply Forall_fmap, Forall_forall. intros x _. apply Hf. Qed.

Lemma source_row_nodup s : NoDup (keys (Query.source_row s)).
Proof. by apply (bool_decide_unpack _). Qed.

Lemma document_row_nodup d : NoDup (keys (Query.document_row d)).
Proof. by apply (bool_decide_unpack _). Qed.

Lemma code_example_row_nodup cs : NoDup (keys (Query.code_example_row cs)).
Proof. by apply (bool_decide_unpack _). Qed.

Lemma get_documents_all self w db :
  files w !! db_path self = Some (DatabaseFile db) →
  get_documents self VNone w
  = (Ok (Query.select_documents db),
     logged (Executed (db_path self) SelectDocuments) w).
Proof. intros Hdb. by rewrite (get_documents_eq _ _ _ Hdb). Qed.

Lemma get_code_examples_all self w db :
  files w !! db_path self = Some (DatabaseFile db) →
  get_code_examples self VNone w
  = (Ok (Query.select_code_examples db),
     logged (Executed (db_path self) SelectCodeExamples) w).
Proof. intros Hdb. by rewrite (get_code_examples_eq _ _ _ Hdb). Qed.

(** C5: for every database, [export_to_json(path)] returns [path] and
    leaves at [path] a JSON text that reads back as an object with the
    keys [sources], [documents] and [code_examples], in this order, each
    holding an array; the arrays are as long as the lists that
    [list_sources()], [get_documents()] and [get_code_examples()]
    return. *)
Theorem export_to_json_reparse self w db output_path :
  files w !! db_path self = Some (DatabaseFile db) →
  ∃ w' text js jd jc srcs docs exs,
    export_to_json self output_path w = (Ok output_path, w')
    ∧ files w' !! output_path = Some (TextFile text)
    ∧ Json.loads text
      = Some (JDict [("sources", JList js); ("documents", JList jd);
                     ("code_examples", JList jc)])
    ∧ (list_sources self w).1 = Ok srcs ∧ length js = length srcs
    ∧ (get_documents self VNone w).1 = Ok docs ∧ length jd = length docs
    ∧ (get_code_examples self VNone w).1 = Ok exs ∧ length jc = length exs.
Proof.
  intros Hdb.
  set (srcs := Query.select_sources db).
  set (docs := Query.select_documents db).
  set (exs := Query.select_code_examples db).
  set (data := PDict [("sources", records srcs); ("documents", records docs);
                      ("code_examples", records exs)]).
  destruct (loaded_records srcs) as (js & Hjs & Hlen_s).
  destruct (loaded_records docs) as (jd & Hjd & Hlen_d).
  destruct (loaded_records exs) as (jc & Hjc & Hlen_c).
  eexists _, (Json.dumps data), js, jd, jc, srcs, docs, exs.
  split; [|split; [|split]].
  - unfold export_to_json.
    erewrite bind_ok by (apply list_sources_eq; exact Hdb).
    erewrite bind_ok by (apply get_documents_all; exact Hdb).
    erewrite bind_ok by (apply get_code_examples_all; exact Hdb).
    reflexivity.
  - simpl. apply lookup_insert_eq.
  - rewrite loads_dumps.
    + unfold data. cbn [Json.loaded map fst snd]. by rewrite Hjs, Hjd, Hjc.
    + split; [by apply (bool_decide_unpack _)|].
      repeat split; apply well_formed_records, rows_nodup;
        auto using source_row_nodup, document_row_nodup,
                   code_example_row_nodup.
  - rewrite (list_sources_eq _ _ _ Hdb), (get_documents_all _ _ _ Hdb),
      (get_code_examples_all _ _ _ Hdb). simpl. by repeat split.
Qed.

Lemma export_to_json_reparse_witness :
  ∃ w' text js jd jc,
    export_to_json Sample.reader "devdigger_export.json" Sample.world
    = (Ok "devdigger_export.json", w')
    ∧ files w' !! "devdigger_export.json" = Some (TextFile text)
    ∧ Json.loads text
      = Some (JDict [("sources", JList js); ("documents", JList jd);
                     ("code_examples", JList jc)])
    ∧ length js = 2%nat ∧ length jd = 3%nat ∧ length jc = 1%nat.
Proof.
  destruct (export_to_json_reparse Sample.reader Sample.world Sample.db
              "devdigger_export.json" sample_database_file)
    as (w' & text & js & jd & jc & srcs & docs & exs & Hrun & Hfile & Hload
        & Hsrcs & Hjs & Hdocs & Hjd & Hexs & Hjc).
  exists w', text, js, jd, jc. repeat split; try done.
  - injection Hsrcs as <-. by rewrite Hjs.
  - injection Hdocs as <-. by rewrite Hjd.
  - injection Hexs as <-. by rewrite Hjc.
Defined.

(** * Further properties of the methods *)

(** ** LIKE with a literal query, both ways *)








Lemma sql_eq_true (a b : value) :
  Sql.eq a b = true ↔ a = b ∧ b ≠ VNone.
Proof.
  destruct a, b; simpl; rewrite ?bool_decide_eq_true; intuition congruence.
Qed.

(** The pairs of a join: a row of the table with a source whose [id] is
    the row's [source_id], which is then not NULL. *)
Lemma join_sources_pairs {A} (key : A → value) table db t s :
  (t, s) ∈ Query.join_sources key table db
  ↔ t ∈ table ∧ s ∈ sources db ∧ key t = src_id s ∧ src_id s ≠ VNone.
Proof. rewrite join_sources_elem, sql_eq_true. tauto. Qed.

(** ** search, further *)











(** X5: an [int] argument outside the 64-bit signed range cannot be
    bound: on a database, [search] with such a limit, [get_documents]
    with such a [source_id] and [get_code_examples] with such a
    [language] raise [OverflowError], and the statement does not
    run. *)
Theorem unbindable_int self w db z :
  files w !! db_path self = Some (DatabaseFile db) →
  Sql.fits_int64 z = false →
  (∀ query, search self query z w = (Raise OverflowError, w))
  ∧ get_documents self (VInt z) w = (Raise OverflowError, w)
  ∧ get_code_examples self (VInt z) w = (Raise OverflowError, w).
Proof.
  intros Hdb Hfit.
  assert (Hz : (z =? 0) = false).
  { apply Z.eqb_neq. intros ->. discriminate Hfit. }
  split; [|split].
  - intros query. rewrite (search_eq _ _ _ Hdb). simpl. by rewrite Hfit.
  - rewrite (get_documents_eq _ _ _ Hdb). simpl. by rewrite Hz, Hfit.
  - rewrite (get_code_examples_eq _ _ _ Hdb). simpl. by rewrite Hz, Hfit.
Qed.

Lemma unbindable_int_witness :
  get_documents Sample.reader (VInt (2 ^ 63)) Sample.world
  = (Raise OverflowError, Sample.world).
Proof.
  destruct (unbindable_int Sample.reader Sample.world Sample.db (2 ^ 63)
              sample_database_file eq_refl) as (_ & Hdocs & _).
  exact Hdocs.
Defined.

(** ** get_code_examples *)






(** ** get_documents, further *)



(** X9: the documents of a source are among all documents: whatever the
    argument that can be bound, the records [get_documents(source_id)]
    returns are, up to their order, some of the records
    [get_documents()] returns, each at most as often. *)
Theorem get_documents_among_all self w db source_id :
  files w !! db_path self = Some (DatabaseFile db) →
  Sql.bindable source_id = true →
  ∃ some all w1 w2,
    get_documents self source_id w = (Ok some, w1)
    ∧ get_documents self VNone w = (Ok all, w2)
    ∧ some ⊆+ all.
Proof.
  intros Hdb Hbind.
  rewrite !(get_documents_eq _ _ _ Hdb), Hbind. simpl.
  destruct (truthy source_id); eexists _, _, _, _;
    (split; [reflexivity|]); (split; [reflexivity|]); [|done].
  unfold Query.select_documents_of, Query.select_documents.
  apply fmap_submseteq. rewrite merge_sort_Permutation.
  apply sublist_submseteq, sublist_filter.
Qed.

Lemma get_documents_among_all_witness :
  ∃ some all w1 w2,
    get_documents Sample.reader (VInt 1) Sample.world = (Ok some, w1)
    ∧ get_documents Sample.reader VNone Sample.world = (Ok all, w2)
    ∧ some ⊆+ all.
Proof.
  exact (get_documents_among_all Sample.reader Sample.world Sample.db
           (VInt 1) sample_database_file eq_refl).
Defined.

(** ** get_stats and the lists *)

(** X10: the counts of [get_stats()] are the lengths of the lists the
    other methods return: [sources] that of [list_sources()],
    [documents] that of [get_documents()], and, when every code example
    has exactly one source, [code_examples] that of
    [get_code_examples()]. *)
Theorem get_stats_lengths self w db :
  files w !! db_path self = Some (DatabaseFile db) →
  ∃ stats srcs docs exs w1 w2 w3 w4,
    get_stats self w = (Ok stats, w1)
    ∧ list_sources self w = (Ok srcs, w2)
    ∧ get_documents self VNone w = (Ok docs, w3)
    ∧ get_code_examples self VNone w = (Ok exs, w4)
    ∧ dict_get "sources" stats = Some (VInt (Z.of_nat (length srcs)))
    ∧ dict_get "documents" stats = Some (VInt (Z.of_nat (length docs)))
    ∧ ((∀ c, c ∈ code_examples db →
             ∃ s, filter (λ s, Is_true (Sql.eq (ex_source_id c) (src_id s)))
                         (sources db) = [s]) →
       dict_get "code_examples" stats
       = Some (VInt (Z.of_nat (length exs)))).
Proof.
  intros Hdb. eexists _, _, _, _, _, _, _, _.
  rewrite (get_stats_eq _ _ _ Hdb), (list_sources_eq _ _ _ Hdb),
    (get_documents_eq _ _ _ Hdb), (get_code_examples_eq _ _ _ Hdb).
  simpl. do 4 (split; [reflexivity|]). split; [|split].
  - unfold Query.select_sources.
    by rewrite length_fmap, (merge_sort_Permutation Query.newer_first).
  - unfold Query.select_documents. by rewrite length_fmap.
  - intros Hone. unfold Query.select_code_examples.
    rewrite length_fmap.
    rewrite <- (join_sources_one_each ex_source_id (code_examples db) db Hone)
      at 1.
    by rewrite length_fmap.
Qed.

Lemma get_stats_lengths_witness :
  ∃ stats srcs w1 w2,
    get_stats Sample.reader Sample.world = (Ok stats, w1)
    ∧ list_sources Sample.reader Sample.world = (Ok srcs, w2)
    ∧ dict_get "sources" stats = Some (VInt (Z.of_nat (length srcs))).
Proof.
  destruct (get_stats_lengths Sample.reader Sample.world Sample.db
              sample_database_file)
    as (stats & srcs & docs & exs & w1 & w2 & w3 & w4
        & Hstats & Hsrcs & _ & _ & Hlen & _).
  by exists stats, srcs, w1, w2.
Defined.

(** ** get_embeddings, further *)

(** Among rows with a blob, one whose blob is not made of whole
    elements stops the loop, and nothing is returned. *)
Lemma decode_rows_raise pairs results w :
  Forall (λ ds, is_Some (doc_embedding ds.1)) pairs →
  Exists (λ ds, ∃ b, doc_embedding ds.1 = Some b
                     ∧ Z.of_nat (length b) `mod` 4 ≠ 0) pairs →
  for_each (Query.embedding_row <$> pairs)
    (λ results r, doc ← decode r; mret (results ++ [doc])) results w
  = (Raise ValueError, w).
Proof.
  intros Hall. revert results.
  induction Hall as [|ds pairs [b Hb] _ IH]; intros results Hbad.
  { by apply Exists_nil in Hbad. }
  rewrite fmap_cons. simpl for_each.
  destruct (decide (Z.of_nat (length b) `mod` 4 = 0)) as [Hlen|Hlen].
  - erewrite bind_ok; [|erewrite bind_ok by (by apply decode_row); done].
    apply IH. apply Exists_cons in Hbad as [(b' & Hb' & Hlen')|Hbad]; [|done].
    congruence.
  - erewrite bind_raise; [done|]. erewrite bind_raise; [done|].
    by apply decode_row_raises with b.
Qed.

(** X11: a damaged blob is not skipped: when some document that has a
    source carries a blob whose length is not a multiple of four,
    [get_embeddings()] raises [ValueError] and returns no record at
    all, not even those of the documents whose blob is whole. *)
Theorem get_embeddings_damaged_blob self w db d s b :
  files w !! db_path self = Some (DatabaseFile db) →
  d ∈ documents db → s ∈ sources db →
  doc_source_id d = src_id s → src_id s ≠ VNone →
  doc_embedding d = Some b →
  Z.of_nat (length b) `mod` 4 ≠ 0 →
  get_embeddings self w
  = (Raise ValueError, logged (Executed (db_path self) SelectEmbeddings) w).
Proof.
  intros Hdb Hd Hs Heq Hnull Hb Hlen. unfold get_embeddings.
  erewrite bind_ok by (by eapply execute_run).
  apply decode_rows_raise.
  - apply Forall_forall. by intros ds [Hsome _]%list_elem_of_filter.
  - apply Exists_exists. exists (d, s). split; [|by exists b].
    apply list_elem_of_filter. split; [by exists b|].
    by apply join_sources_pairs.
Qed.

Lemma get_embeddings_damaged_blob_witness :
  (get_embeddings Sample.reader Damaged.world).1 = Raise ValueError.
Proof.
  rewrite (get_embeddings_damaged_blob Sample.reader Damaged.world
             Damaged.db Damaged.torn Sample.vue_site [x00; x00; x80]);
    try done.
  - simpl. do 3 apply list_elem_of_further. apply list_elem_of_here.
  - simpl. apply list_elem_of_further, list_elem_of_here.
Defined.

(** X12: decoding loses nothing: the bytes of the elements of the array
    that [np.frombuffer] makes of a blob of whole elements are, in
    order, the bytes of the blob. *)
Theorem elements_bytes (b : list byte) :
  Z.of_nat (length b) `mod` 4 = 0 →
  elements b ≫= (λ e, [f0 e; f1 e; f2 e; f3 e]) = b.
Proof.
  assert (H : ∀ n (b : list byte), (length b < n)%nat →
              Z.of_nat (length b) `mod` 4 = 0 →
              elements b ≫= (λ e, [f0 e; f1 e; f2 e; f3 e]) = b).
  { clear b. induction n as [|n IH]; intros b Hn Hlen; [lia|].
    destruct b as [|b0 [|b1 [|b2 [|b3 b]]]]; try done.
    simpl elements. rewrite bind_cons. simpl. do 4 f_equal.
    apply IH; [simpl in Hn; lia|].
    simpl length in Hlen.
    replace (Z.of_nat (S (S (S (S (length b))))))
      with (Z.of_nat (length b) + 1 * 4) in Hlen by lia.
    by rewrite Z.mod_add in Hlen by lia. }
  apply (H (S (length b))). lia.
Qed.

Lemma elements_bytes_witness :
  elements [x00; x00; x80; x3f; x00; x00; x00; x40]
    ≫= (λ e, [f0 e; f1 e; f2 e; f3 e])
  = [x00; x00; x80; x3f; x00; x00; x00; x40].
Proof. apply elements_bytes. reflexivity. Defined.

(** ** to_langchain_documents *)

Lemma langchain_rows docs acc w :
  for_each (Query.document_row <$> docs)
    (λ documents doc,
       content ← item "content" doc;
       source_id ← item "source_id" doc;
       chunk_index ← item "chunk_index" doc;
       id ← item "id" doc;
       mret (documents
             ++ [{| Langchain.page_content := content;
                    Langchain.metadata :=
                      dict_of [("source_id", source_id);
                               ("chunk_index", chunk_index);
                               ("id", id)] |}]))
    acc w
  = (Ok (acc ++ ((λ d, {| Langchain.page_content := VStr (doc_content d);
                          Langchain.metadata :=
                            [("source_id", doc_source_id d);
                             ("chunk_index", VInt (doc_chunk_index d));
                             ("id", doc_id d)] |}) <$> docs)), w).
Proof.
  revert acc. induction docs as [|d docs IH]; intros acc.
  - simpl. by rewrite app_nil_r.
  - rewrite !fmap_cons. simpl for_each.
    erewrite bind_ok by reflexivity. rewrite IH.
    by rewrite <- app_assoc.
Qed.

(** X13: with LangChain installed, [to_langchain_documents()] returns
    one [Document] for each document of the table, in the order of the
    table: its [page_content] is the document's content and its
    [metadata] has exactly the keys [source_id], [chunk_index] and [id]
    with the document's values; the embedding is not passed on.
    Without LangChain it prints the hint to install it and returns the
    empty list, and no statement is run. *)
Theorem to_langchain_documents_all self w db :
  files w !! db_path self = Some (DatabaseFile db) →
  (to_langchain_documents true self w).1
  = Ok ((λ d, {| Langchain.page_content := VStr (doc_content d);
                 Langchain.metadata :=
                   [("source_id", doc_source_id d);
                    ("chunk_index", VInt (doc_chunk_index d));
                    ("id", doc_id d)] |}) <$> documents db)
  ∧ to_langchain_documents false self w
    = (Ok [], logged (Printed "Install langchain: pip install langchain") w).
Proof.
  intros Hdb. split; [|reflexivity].
  unfold to_langchain_documents. change (negb true) with false. cbv iota.
  erewrite bind_ok by (by apply get_documents_all).
  unfold Query.select_documents. by rewrite langchain_rows.
Qed.

Lemma to_langchain_documents_all_witness :
  ∃ docs,
    (to_langchain_documents true Sample.reader Sample.world).1 = Ok docs
    ∧ Langchain.page_content <$> docs
      = [VStr "Learn React hooks"; VStr "Getting started";
         VStr "a page whose source is gone"].
Proof.
  destruct (to_langchain_documents_all Sample.reader Sample.world Sample.db
              sample_database_file) as [Hrun _].
  eexists. split; [exact Hrun | reflexivity].
Defined.

(** ** export_to_json, further *)

(** The world after an export. *)
Lemma export_to_json_eq self w db output_path :
  files w !! db_path self = Some (DatabaseFile db) →
  export_to_json self output_path w
  = (Ok output_path,
     {| files :=
          <[output_path :=
              TextFile
                (Json.dumps
                   (PDict [("sources", records (Query.select_sources db));
                           ("documents",
                            records (Query.select_documents db));
                           ("code_examples",
                            records (Query.select_code_examples db))]))]>
            (files w);
        log := log w ++ [Executed (db_path self) SelectSources;
                         Executed (db_path self) SelectDocuments;
                         Executed (db_path self) SelectCodeExamples;
                         Written output_path] |}).
Proof.
  intros Hdb. unfold export_to_json.
  erewrite bind_ok by (apply list_sources_eq; exact Hdb).
  erewrite bind_ok by (apply get_documents_all; exact Hdb).
  erewrite bind_ok by (apply get_code_examples_all; exact Hdb).
  unfold mbind, M_bind, write_text, mret, M_ret, logged. simpl.
  by rewrite <- !app_assoc.
Qed.

Lemma well_formed_export db :
  Json.well_formed
    (PDict [("sources", records (Query.select_sources db));
            ("documents", records (Query.select_documents db));
            ("code_examples", records (Query.select_code_examples db))]).
Proof.
  split; [by apply (bool_decide_unpack _)|].
  repeat split; apply well_formed_records, rows_nodup;
    auto using source_row_nodup, document_row_nodup, code_example_row_nodup.
Qed.

(** X14: the exported text reads back as the exported data, field by
    field: [None] as [null], an [int] as a number, a [str] as a string
    and a blob as the string [str] makes of it.  In particular the
    array under [documents] has, for each document of the table in
    order, the object of its five columns, with the embedding as the
    text of Python's [bytes] literal and not as numbers. *)
Theorem export_to_json_round_trip self w db output_path :
  files w !! db_path self = Some (DatabaseFile db) →
  ∃ w' text srcs docs exs,
    export_to_json self output_path w = (Ok output_path, w')
    ∧ files w' !! output_path = Some (TextFile text)
    ∧ (list_sources self w).1 = Ok srcs
    ∧ (get_documents self VNone w).1 = Ok docs
    ∧ (get_code_examples self VNone w).1 = Ok exs
    ∧ Json.loads text
      = Some (Json.loaded
                (PDict [("sources", records srcs); ("documents", records docs);
                        ("code_examples", records exs)]))
    ∧ Json.loaded (records docs)
      = JList ((λ d, JDict [("id", Json.loaded (PVal (doc_id d)));
                            ("source_id", Json.loaded (PVal (doc_source_id d)));
                            ("content", JStr (doc_content d));
                            ("chunk_index", JInt (doc_chunk_index d));
                            ("embedding",
                             match doc_embedding d with
                             | Some b => JStr (Py.bytes_repr b)
                             | None => JNull
                             end)])
               <$> documents db).
Proof.
  intros Hdb. eexists _, _, _, _, _.
  rewrite (export_to_json_eq _ _ _ _ Hdb), (list_sources_eq _ _ _ Hdb),
    (get_documents_all _ _ _ Hdb), (get_code_examples_all _ _ _ Hdb).
  split; [reflexivity|]. split; [apply lookup_insert_eq|].
  do 3 (split; [reflexivity|]). split.
  - apply loads_dumps, well_formed_export.
  - unfold records, Query.select_documents. cbn [Json.loaded]. f_equal.
    induction (documents db) as [|d docs IH]; [done|].
    rewrite !fmap_cons. f_equal; [|exact IH].
    unfold Query.document_row. simpl. by destruct (doc_embedding d).
Qed.

Lemma export_to_json_round_trip_witness :
  ∃ w' text,
    export_to_json Sample.reader "out.json" Sample.world
    = (Ok "out.json", w')
    ∧ files w' !! "out.json" = Some (TextFile text)
    ∧ ∃ js jd jc,
        Json.loads text
        = Some (JDict [("sources", JList js); ("documents", JList jd);
                       ("code_examples", JList jc)])
        ∧ jd !! 1%nat
          = Some (JDict [("id", JInt 11); ("source_id", JInt 1);
                         ("content", JStr "Getting started");
                         ("chunk_index", JInt 0); ("embedding", JNull)]).
Proof.
  destruct (export_to_json_round_trip Sample.reader Sample.world Sample.db
              "out.json" sample_database_file)
    as (w' & text & srcs & docs & exs & Hrun & Hfile & Hsrcs & Hdocs & Hexs
        & Hload & Hjd).
  exists w', text. split; [done|]. split; [done|].
  rewrite Hload. cbn [Json.loaded map fst snd]. rewrite Hjd.
  eexists _, _, _. split; reflexivity.
Defined.



(** *** The exported text is plain ASCII *)

Section AsciiText.
Import Json Py.

Lemma escape_ascii c : Forall (λ c, plain_ascii c = true) (escape c).
Proof.
  apply Forall_forall. intros x Hx%list_elem_of_In. revert x Hx.
  apply forallb_forall.
  by destruct c as [[] [] [] [] [] [] [] []]; vm_compute.
Qed.

Lemma encode_string_ascii s :
  Forall (λ c, plain_ascii c = true) (encode_string s).
Proof.
  unfold encode_string. constructor; [done|]. apply Forall_app. split.
  - apply Forall_forall. intros x (c & Hx & _)%list_elem_of_bind.
    revert x Hx. apply Forall_forall, escape_ascii.
  - by constructor.
Qed.

Lemma uint_ascii d :
  Forall (λ c, plain_ascii c = true) (Text.chars (NilEmpty.string_of_uint d)).
Proof. induction d; simpl; by constructor. Qed.

Lemma int_str_ascii z :
  Forall (λ c, plain_ascii c = true) (Text.chars (int_str z)).
Proof.
  unfold int_str, NilZero.string_of_int, NilZero.string_of_uint.
  destruct (Z.to_int z) as [d|d]; [|constructor; [done|]];
    (destruct d; [by repeat constructor | apply uint_ascii ..]).
Qed.

Lemma encode_value_ascii v :
  Forall (λ c, plain_ascii c = true) (encode_value v).
Proof.
  destruct v; simpl.
  - by repeat constructor.
  - apply int_str_ascii.
  - apply encode_string_ascii.
  - apply encode_string_ascii.
Qed.

Lemma newline_indent_ascii level :
  Forall (λ c, plain_ascii c = true) (newline_indent level).
Proof.
  unfold newline_indent. constructor; [done|].
  apply Forall_replicate. done.
Qed.

Lemma join_ascii sep parts :
  Forall (λ c, plain_ascii c = true) sep →
  Forall (Forall (λ c, plain_ascii c = true)) parts →
  Forall (λ c, plain_ascii c = true) (join sep parts).
Proof.
  intros Hsep. induction 1 as [|p parts Hp Hparts IH]; [constructor|].
  destruct parts as [|q parts]; [done|].
  rewrite join_cons. by rewrite !Forall_app.
Qed.

Lemma block_ascii open close level parts :
  plain_ascii open = true → plain_ascii close = true →
  Forall (Forall (λ c, plain_ascii c = true)) parts →
  Forall (λ c, plain_ascii c = true) (block open close level parts).
Proof.
  intros Hopen Hclose Hparts. unfold block.
  destruct parts as [|p parts]; [by repeat constructor|].
  constructor; [done|]. rewrite !Forall_app. repeat split.
  - apply newline_indent_ascii.
  - apply join_ascii; [|done]. constructor; [done|].
    apply newline_indent_ascii.
  - apply newline_indent_ascii.
  - by constructor.
Qed.

Lemma encode_ascii o :
  ∀ level, Forall (λ c, plain_ascii c = true) (encode level o).
Proof.
  induction o as [v|items IH|items IH] using pyobj_nested_ind; intros level.
  - apply encode_value_ascii.
  - rewrite encode_list. apply block_ascii; [done..|].
    apply Forall_forall. intros p Hp%list_elem_of_In.
    apply in_map_iff in Hp as (x & <- & Hx%list_elem_of_In).
    revert x Hx. apply Forall_forall. eapply Forall_impl; [exact IH|].
    intros x Hx. apply Hx.
  - rewrite encode_dict. apply block_ascii; [done..|].
    apply Forall_forall. intros p Hp%list_elem_of_In.
    apply in_map_iff in Hp as ([k x] & <- & Hx%list_elem_of_In).
    revert k x Hx.
    assert (Hall : Forall (λ kv : string * pyobj,
                     Forall (λ c, plain_ascii c = true)
                       (encode_string kv.1 ++ Text.chars ": "
                        ++ encode (S level) kv.2)) items).
    { eapply Forall_impl; [exact IH|]. intros [k x] Hx. cbn [fst snd] in *.
      rewrite !Forall_app. split; [apply encode_string_ascii|].
      split; [by repeat constructor | apply Hx]. }
    intros k x Hx. by apply (proj1 (Forall_forall _ _) Hall (k, x)).
Qed.

End AsciiText.

(** X17: whatever the database holds, the exported text is plain ASCII:
    every character of the file is printable ASCII or a line feed;
    quotes, backslashes, control characters and characters beyond ASCII
    inside the data are written as escapes. *)
Theorem export_to_json_ascii self w db output_path :
  files w !! db_path self = Some (DatabaseFile db) →
  ∃ w' text,
    export_to_json self output_path w = (Ok output_path, w')
    ∧ files w' !! output_path = Some (TextFile text)
    ∧ Forall (λ c, plain_ascii c = true) (Text.chars text).
Proof.
  intros Hdb. eexists _, _.
  rewrite (export_to_json_eq _ _ _ _ Hdb).
  split; [reflexivity|]. split; [apply lookup_insert_eq|].
  unfold Json.dumps, Text.chars.
  rewrite list_ascii_of_string_of_list_ascii. apply encode_ascii.
Qed.

Lemma export_to_json_ascii_witness :
  ∃ w' text,
    export_to_json Sample.reader "out.json" Sample.world
    = (Ok "out.json", w')
    ∧ files w' !! "out.json" = Some (TextFile text)
    ∧ Forall (λ c, plain_ascii c = true) (Text.chars text).
Proof.
  exact (export_to_json_ascii Sample.reader Sample.world Sample.db "out.json"
           sample_database_file).
Defined.

(** ** The usage example, step by step *)

Section Performs.
Context (path : string) (db : database).

Lemma performs_ret {A} (a : A) (Q : A → Prop) :
  Q a → performs path db (mret a) [] Q.
Proof. intros HQ w Hw. exists a, w, []. by rewrite app_nil_r. Qed.

Lemma performs_emit (e : event) :
  performs path db (emit e) (actions [e]) (λ _, True).
Proof. intros w Hw. by exists (), (logged e w), [e]. Qed.

Lemma performs_print (line : string) :
  performs path db (print line) [] (λ _, True).
Proof. apply (performs_emit (Printed line)). Qed.

Lemma performs_bind {A B} (m : M A) (k : A → M B) acts1 acts2 Q R :
  performs path db m acts1 Q →
  (∀ a, Q a → performs path db (k a) acts2 R) →
  performs path db (m ≫= k) (acts1 ++ acts2) R.
Proof.
  intros Hm Hk w Hw.
  destruct (Hm w Hw) as (a & w1 & l1 & Hrun & Hw1 & Hl1 & Hacts1 & HQ).
  destruct (Hk a HQ w1 Hw1) as (b & w2 & l2 & Hrun' & Hw2 & Hl2 & Hacts2 & HR).
  exists b, w2, (l1 ++ l2). rewrite (bind_ok _ _ _ _ _ Hrun).
  split; [done|]. split; [done|]. split; [by rewrite Hl2, Hl1, app_assoc|].
  split; [|done]. unfold actions in *. by rewrite filter_app, Hacts1, Hacts2.
Qed.

Lemma performs_weaken {A} (m : M A) acts (Q R : A → Prop) :
  performs path db m acts Q → (∀ a, Q a → R a) → performs path db m acts R.
Proof.
  intros Hm HQR w Hw.
  destruct (Hm w Hw) as (a & w' & l & Hrun & Hw' & Hl & Hacts & HQ).
  exists a, w', l. repeat split; auto.
Qed.

Lemma performs_item {V} k (d : list (string * V)) v :
  dict_get k d = Some v → performs path db (item k d) [] (λ x, x = v).
Proof. intros Hk. unfold item. rewrite Hk. by apply performs_ret. Qed.

(** A loop whose body only prints. *)
Lemma performs_for_each {A S} (P : A → Prop) xs (body : S → A → M S) s :
  Forall P xs →
  (∀ s x, P x → performs path db (body s x) [] (λ _, True)) →
  performs path db (for_each xs body s) [] (λ _, True).
Proof.
  intros Hxs Hbody. revert s.
  induction Hxs as [|x xs Hx _ IH]; intros s; simpl.
  - by apply performs_ret.
  - apply (performs_bind _ _ [] [] (λ _, True)); [by apply Hbody | auto].
Qed.

Lemma performs_eq {A} (m : M A) (a : A) (e : event) :
  (∀ w, files w !! path = Some (DatabaseFile db) → m w = (Ok a, logged e w)) →
  performs path db m (actions [e]) (λ x, x = a).
Proof.
  intros Hm w Hw. exists a, (logged e w), [e]. by rewrite (Hm w Hw).
Qed.

End Performs.

Lemma performs_get_stats home db :
  performs (DB_PATH home) db (get_stats {| db_path := DB_PATH home |})
    [Executed (DB_PATH home) (CountRows "sources");
     Executed (DB_PATH home) (CountRows "documents");
     Executed (DB_PATH home) (CountRows "code_examples");
     Executed (DB_PATH home) (CountRows "collections")]
    (λ stats,
       stats = [("sources", VInt (Z.of_nat (length (sources db))));
                ("documents", VInt (Z.of_nat (length (documents db))));
                ("code_examples",
                 VInt (Z.of_nat (length (code_examples db))));
                ("collections", VInt (Z.of_nat (length (collections db))))]).
Proof.
  intros w Hw. eexists _, _, _.
  rewrite (get_stats_eq {| db_path := DB_PATH home |} w db Hw).
  split; [reflexivity|]. split; [exact Hw|]. split.
  - unfold counted, tables, logged. simpl. by rewrite <- !app_assoc.
  - split; reflexivity.
Qed.

(** X18: on a database, [example_basic_usage()] ends without an
    exception, and what it does besides printing is this: it connects
    and counts the rows of the four tables; when the table of sources is
    empty it stops there, and the connection is never closed; otherwise
    it runs, in this order, the statements of [list_sources()],
    [search("react", limit=3)] and [get_code_examples()] and then closes
    the connection. *)
Theorem example_basic_usage_actions home w db :
  files w !! DB_PATH home = Some (DatabaseFile db) →
  ∃ w' l,
    example_basic_usage home w = (Ok (), w')
    ∧ log w' = log w ++ l
    ∧ actions l
      = [Connected (DB_PATH home);
         Executed (DB_PATH home) (CountRows "sources");
         Executed (DB_PATH home) (CountRows "documents");
         Executed (DB_PATH home) (CountRows "code_examples");
         Executed (DB_PATH home) (CountRows "collections")]
        ++ match sources db with
           | [] => []
           | _ :: _ =>
               [Executed (DB_PATH home) SelectSources;
                Executed (DB_PATH home) (SearchDocuments "%react%" 3);
                Executed (DB_PATH home) SelectCodeExamples;
                Closed (DB_PATH home)]
           end.
Proof.
  intros Hw.
  cut (performs (DB_PATH home) db (example_basic_usage home)
         ([Connected (DB_PATH home);
           Executed (DB_PATH home) (CountRows "sources");
           Executed (DB_PATH home) (CountRows "documents");
           Executed (DB_PATH home) (CountRows "code_examples");
           Executed (DB_PATH home) (CountRows "collections")]
          ++ match sources db with
             | [] => []
             | _ :: _ =>
                 [Executed (DB_PATH home) SelectSources;
                  Executed (DB_PATH home) (SearchDocuments "%react%" 3);
                  Executed (DB_PATH home) SelectCodeExamples;
                  Closed (DB_PATH home)]
             end)
         (λ _, True)).
  { intros Hrun.
    destruct (Hrun w Hw) as ([] & w' & l & Hl & _ & Hlog & Hacts & _).
    by exists w', l. }
  clear w Hw. unfold example_basic_usage.
  do 3 (apply (performs_bind _ _ _ _ [] _ (λ _, True));
        [apply performs_print | intros _ _]).
  apply (performs_bind _ _ _ _ [Connected (DB_PATH home)] _
           (λ self, self = {| db_path := DB_PATH home |})).
  { apply (performs_eq _ _ _ _ (Connected (DB_PATH home))).
    intros w Hw. by eapply connect_present. }
  intros self ->.
  eapply (performs_bind _ _ _ _ _ _ _ _ (performs_get_stats home db)).
  intros stats ->.
  apply (performs_bind _ _ _ _ [] _ (λ _, True));
    [apply performs_print | intros _ _].
  apply (performs_bind _ _ _ _ [] _ (λ _, True)).
  { apply (performs_for_each _ _ (λ _, True)); [by apply Forall_true|].
    intros _ entry _. apply performs_print. }
  intros _ _.
  apply (performs_bind _ _ _ _ [] _
           (λ n, n = VInt (Z.of_nat (length (sources db)))));
    [by apply performs_item|].
  intros n ->. destruct (sources db) as [|s0 srcs0] eqn:Hsrcs.
  { rewrite bool_decide_true by done. apply performs_print. }
  rewrite bool_decide_false by (simpl; intros [=]; lia).
  apply (performs_bind _ _ _ _ [] _ (λ _, True));
    [apply performs_print | intros _ _].
  apply (performs_bind _ _ _ _ [Executed (DB_PATH home) SelectSources] _
           (λ rows, rows = Query.select_sources db)).
  { apply (performs_eq _ _ _ _ (Executed (DB_PATH home) SelectSources)).
    intros w Hw.
    by rewrite (list_sources_eq {| db_path := DB_PATH home |} _ _ Hw). }
  intros srcs ->.
  apply (performs_bind _ _ _ _ [] _ (λ _, True)).
  { apply (performs_for_each _ _ (λ y, ∃ s, y = Query.source_row s));
      [apply Forall_take_fmap|].
    intros _ source [s ->].
    apply (performs_bind _ _ _ _ [] [] (λ title, title = src_title s));
      [by apply performs_item | intros title ->].
    apply (performs_bind _ _ _ _ [] [] (λ _, True));
      [|intros shown _; apply performs_print].
    destruct (truthy _); [by apply performs_ret|].
    eapply performs_weaken; [by apply performs_item | done]. }
  intros _ _.
  apply (performs_bind _ _ _ _ [] _ (λ _, True));
    [apply performs_print | intros _ _].
  apply (performs_bind _ _ _ _
           [Executed (DB_PATH home) (SearchDocuments "%react%" 3)] _
           (λ rows, rows = Query.search_documents "%react%" 3 db)).
  { apply (performs_eq _ _ _ _
             (Executed (DB_PATH home) (SearchDocuments "%react%" 3))).
    intros w Hw.
    by rewrite (search_eq {| db_path := DB_PATH home |} _ _ Hw). }
  intros results ->.
  apply (performs_bind _ _ _ _ [] _ (λ _, True)).
  { apply (performs_for_each _ _ (λ y, ∃ ds, y = Query.search_row ds));
      [apply Forall_fmap, Forall_forall; intros ds _; by exists ds|].
    intros i result [ds ->].
    apply (performs_bind _ _ _ _ [] [] (λ c, c = VStr (doc_content ds.1)));
      [by apply performs_item | intros content ->].
    apply (performs_bind _ _ _ _ [] [] (λ _, True));
      [apply performs_print | intros _ _; by apply performs_ret]. }
  intros _ _.
  apply (performs_bind _ _ _ _ [] _ (λ _, True));
    [apply performs_print | intros _ _].
  apply (performs_bind _ _ _ _ [Executed (DB_PATH home) SelectCodeExamples] _
           (λ rows, rows = Query.select_code_examples db)).
  { apply (performs_eq _ _ _ _ (Executed (DB_PATH home) SelectCodeExamples)).
    intros w Hw.
    by rewrite (get_code_examples_eq {| db_path := DB_PATH home |} _ _ Hw). }
  intros exs ->.
  apply (performs_bind _ _ _ _ [] [Closed (DB_PATH home)] (λ _, True));
    [|intros _ _; apply (performs_emit _ _ (Closed (DB_PATH home)))].
  apply (performs_for_each _ _ (λ y, ∃ cs, y = Query.code_example_row cs));
    [apply Forall_take_fmap|].
  intros _ example [cs ->].
  apply (performs_bind _ _ _ _ [] [] (λ language, language = ex_language cs.1));
    [by apply performs_item | intros language ->].
  apply performs_print.
Qed.

Lemma example_basic_usage_actions_witness :
  ∃ w' l,
    example_basic_usage Sample.home Sample.world = (Ok (), w')
    ∧ log w' = l
    ∧ last (actions l) = Some (Closed (DB_PATH Sample.home)).
Proof.
  destruct (example_basic_usage_actions Sample.home Sample.world Sample.db
              eq_refl) as (w' & l & Hrun & Hlog & Hacts).
  exists w', l. split; [exact Hrun|]. split; [exact Hlog|]. by rewrite Hacts.
Defined.

(** ** A file that is no database *)

Lemma execute_empty_file self sql w :
  files w !! db_path self = Some (TextFile "") →
  Query.bindable sql = true →
  execute self sql w
  = (Raise OperationalError, logged (Executed (db_path self) sql) w).
Proof.
  intros Hw Hb. unfold execute. rewrite Hb.
  erewrite bind_ok by reflexivity.
  unfold engine. simpl files. by rewrite Hw.
Qed.

Lemma get_stats_empty_file self w :
  files w !! db_path self = Some (TextFile "") →
  get_stats self w
  = (Raise OperationalError,
     logged (Executed (db_path self) (CountRows "sources")) w).
Proof.
  intros Hw. unfold get_stats, tables. simpl for_each.
  erewrite bind_raise; [reflexivity|].
  erewrite bind_raise; [reflexivity|].
  by apply execute_empty_file.
Qed.

Lemma connect_absent path w :
  files w !! path = None →
  connect path w
  = (Ok {| db_path := path |},
     {| files := <[path := TextFile ""]> (files w);
        log := log w ++ [Connected path] |}).
Proof. intros Hw. unfold connect. by rewrite Hw. Qed.

(** X19: [DevDiggerDB(path)] does not fail when there is no file at
    [path]: it creates an empty file there, and it is the first
    statement of whatever method is called next that fails, with
    [OperationalError]; [export_to_json] then writes nothing. *)
Theorem reader_on_missing_file path w :
  files w !! path = None →
  ∃ self w1,
    connect path w = (Ok self, w1)
    ∧ files w1 = <[path := TextFile ""]> (files w)
    ∧ (get_stats self w1).1 = Raise OperationalError
    ∧ (list_sources self w1).1 = Raise OperationalError
    ∧ (∀ query limit, Sql.fits_int64 limit = true →
         (search self query limit w1).1 = Raise OperationalError)
    ∧ (∀ source_id, Sql.bindable source_id = true →
         (get_documents self source_id w1).1 = Raise OperationalError)
    ∧ (∀ language, Sql.bindable language = true →
         (get_code_examples self language w1).1 = Raise OperationalError)
    ∧ (get_embeddings self w1).1 = Raise OperationalError
    ∧ (∀ output_path,
         (export_to_json self output_path w1).1 = Raise OperationalError
         ∧ files (export_to_json self output_path w1).2 = files w1).
Proof.
  intros Hw. eexists _, _. split; [by apply connect_absent|].
  split; [reflexivity|].
  set (self := {| db_path := path |}).
  set (w1 := {| files := <[path := TextFile ""]> (files w);
                log := log w ++ [Connected path] |}).
  assert (Hempty : files w1 !! db_path self = Some (TextFile "")).
  { apply lookup_insert_eq. }
  assert (Hsources : list_sources self w1
                     = (Raise OperationalError,
                        logged (Executed path SelectSources) w1)).
  { unfold list_sources. erewrite bind_raise; [reflexivity|].
    by apply execute_empty_file. }
  repeat split.
  - by rewrite get_stats_empty_file.
  - by rewrite Hsources.
  - intros query limit Hfit. unfold search.
    erewrite bind_raise; [reflexivity|]. by apply execute_empty_file.
  - intros source_id Hbind. unfold get_documents.
    destruct (truthy source_id);
      (erewrite bind_raise; [reflexivity|]); by apply execute_empty_file.
  - intros language Hbind. unfold get_code_examples.
    destruct (truthy language);
      (erewrite bind_raise; [reflexivity|]); by apply execute_empty_file.
  - unfold get_embeddings. erewrite bind_raise; [reflexivity|].
    by apply execute_empty_file.
  - unfold export_to_json. by erewrite bind_raise by exact Hsources.
  - unfold export_to_json. by erewrite bind_raise by exact Hsources.
Qed.

Lemma reader_on_missing_file_witness :
  ∃ self w1,
    connect "new.db" {| files := ∅; log := [] |} = (Ok self, w1)
    ∧ files w1 = {[ "new.db" := TextFile "" ]}
    ∧ (get_stats self w1).1 = Raise OperationalError.
Proof.
  destruct (reader_on_missing_file "new.db" {| files := ∅; log := [] |})
    as (self & w1 & Hrun & Hfiles & Hstats & _); [done|].
  by exists self, w1.
Defined.

(** X20: called on its own, without the guard of the entry point, on a
    machine without the database file, [example_basic_usage()] fails
    with [OperationalError] at its first statement and leaves an empty
    file at the path of the database.  (This is where the directory of
    the path exists, so that the connection can create the file: the
    world has no directories, and with the directory missing the
    connection itself fails and creates nothing.) *)
Theorem example_basic_usage_absent home w :
  files w !! DB_PATH home = None →
  ∃ w',
    example_basic_usage home w = (Raise OperationalError, w')
    ∧ files w' = <[DB_PATH home := TextFile ""]> (files w).
Proof.
  intros Hw. unfold example_basic_usage.
  do 3 (erewrite bind_ok by reflexivity).
  erewrite bind_ok by (by apply connect_absent).
  erewrite bind_raise
    by (apply get_stats_empty_file; apply lookup_insert_eq).
  eexists. split; [reflexivity|]. reflexivity.
Qed.

Lemma example_basic_usage_absent_witness :
  ∃ w',
    example_basic_usage Sample.home {| files := ∅; log := [] |}
    = (Raise OperationalError, w')
    ∧ files w' = {[ DB_PATH Sample.home := TextFile "" ]}.
Proof.
  exact (example_basic_usage_absent Sample.home {| files := ∅; log := [] |}
           eq_refl).
Defined.

(** ** The entry point, further *)

Lemma keeps_close self : keeps_files (close self).
Proof. apply keeps_emit. Qed.

Lemma keeps_print line : keeps_files (print line).
Proof. apply keeps_emit. Qed.

Lemma example_basic_usage_keeps home w f :
  files w !! DB_PATH home = Some f →
  files (example_basic_usage home w).2 = files w.
Proof.
  intros Hw. unfold example_basic_usage.
  do 3 (erewrite bind_ok by reflexivity).
  erewrite bind_ok by (by eapply connect_present).
  match goal with
  | |- files (?m ?w0).2 = _ =>
      transitivity (files w0); [|reflexivity];
      generalize w0; change (keeps_files m)
  end.
  apply keeps_bind; [apply keeps_get_stats | intros stats].
  apply keeps_bind; [apply keeps_print | intros _].
  apply keeps_bind;
    [apply keeps_for_each; intros; apply keeps_print | intros _].
  apply keeps_bind; [apply keeps_item | intros n].
  case_bool_decide; [apply keeps_print|].
  apply keeps_bind; [apply keeps_print | intros _].
  apply keeps_bind; [apply keeps_list_sources | intros srcs].
  apply keeps_bind.
  { apply keeps_for_each. intros _ source.
    apply keeps_bind; [apply keeps_item | intros title].
    apply keeps_bind; [|intros shown; apply keeps_print].
    destruct (truthy title); [apply keeps_ret | apply keeps_item]. }
  intros _.
  apply keeps_bind; [apply keeps_print | intros _].
  apply keeps_bind; [apply keeps_search | intros results].
  apply keeps_bind.
  { apply keeps_for_each. intros i result.
    apply keeps_bind; [apply keeps_item | intros content].
    apply keeps_bind; [|intros _; apply keeps_ret].
    destruct content; first [apply keeps_print | apply keeps_raise]. }
  intros _.
  apply keeps_bind; [apply keeps_print | intros _].
  apply keeps_bind; [apply keeps_get_code_examples | intros exs].
  apply keeps_bind; [|intros _; apply keeps_close].
  apply keeps_for_each. intros _ example.
  apply keeps_bind; [apply keeps_item | intros language].
  apply keeps_print.
Qed.

(** X21: the script leaves the database as it is, whatever is on the
    machine: the content of the file at [DB_PATH] is after the run what
    it was before, also when a statement or a look-up fails on the way
    and when the file is no database; and where there is no file at
    [DB_PATH] there is none afterwards, because the guard stops the
    script before the connection, which would create an empty one. *)
Theorem main_keeps_database home w :
  files (main home w).2 !! DB_PATH home = files w !! DB_PATH home.
Proof.
  unfold main.
  destruct (files w !! DB_PATH home) as [f|] eqn:Hw.
  - erewrite bind_ok; [|unfold path_exists; by rewrite Hw].
    rewrite bool_decide_true by done. simpl negb. cbv iota.
    erewrite bind_ok by reflexivity.
    by erewrite example_basic_usage_keeps.
  - unfold path_exists, mbind, M_bind. rewrite Hw. simpl. exact Hw.
Qed.

(** X22: the exit status of the script is 0 exactly when the file at
    [DB_PATH] is a DevDigger database; it is 1 when the file is missing
    and also when there is a file that is no such database. *)
Theorem run_script_status home w :
  (run_script home w).1
  = match files w !! DB_PATH home with
    | Some (DatabaseFile _) => 0
    | _ => 1
    end.
Proof.
  unfold run_script, main.
  destruct (files w !! DB_PATH home) as [[db|content]|] eqn:Hw.
  - erewrite bind_ok; [|unfold path_exists; by rewrite Hw].
    rewrite bool_decide_true by done. simpl negb. cbv iota.
    erewrite bind_ok by reflexivity.
    by destruct (example_basic_usage_database home w db Hw)
      as (w' & rest & -> & _).
  - erewrite bind_ok; [|unfold path_exists; by rewrite Hw].
    rewrite bool_decide_true by done. simpl negb. cbv iota.
    erewrite bind_ok by reflexivity.
    unfold example_basic_usage.
    do 3 (erewrite bind_ok by reflexivity).
    erewrite bind_ok by (by eapply connect_present).
    match goal with
    | |- context [(get_stats ?s ≫= _) ?w0] =>
        destruct (get_stats_not_database s w0 content)
          as (e & He & Hstats); [exact Hw|]
    end.
    erewrite bind_raise by exact Hstats.
    by destruct He as [-> | ->].
  - unfold path_exists, mbind, M_bind. rewrite Hw. reflexivity.
Qed.

(** ** preview *)

(** X23: the preview of a content printed by the example has the first
    100 characters of the content, or all when there are fewer, and no
    line break: each line feed among them is replaced by a space and
    every other character is kept. *)
Theorem preview_chars (s : string) :
  length (Text.chars (preview s))
  = Nat.min 100 (length (Text.chars s))
  ∧ ("010"%char ∉ Text.chars (preview s))
  ∧ (∀ i c, Text.chars (preview s) !! i = Some c →
       ∃ c0, Text.chars s !! i = Some c0
             ∧ c = if bool_decide (c0 = "010"%char) then " "%char else c0).
Proof.
  unfold preview, Text.chars. rewrite list_ascii_of_string_of_list_ascii.
  split; [|split].
  - by rewrite length_fmap, length_take.
  - intros (c & Hc & _)%list_elem_of_fmap. by case_bool_decide.
  - intros i c Hi. apply list_lookup_fmap_Some in Hi as (c0 & -> & Hi).
    apply lookup_take_Some in Hi as [Hi _]. by exists c0.
Qed.

Lemma preview_chars_witness :
  ∃ c0, Text.chars (String "a" (String "010" "b")) !! 1%nat = Some c0
        ∧ " "%char = if bool_decide (c0 = "010"%char) then " "%char else c0.
Proof.
  destruct (preview_chars (String "a" (String "010" "b"))) as (_ & _ & Hat).
  exact (Hat 1%nat " "%char eq_refl).
Defined.
